(** * Anti-location-tracker: a shallow embedding of the simulation core

    The development follows the Python sources:
    - [AntiGPS]         : [anti_gps.py], class [AntiGPSSystem];
    - [LiveLocations]   : [live_locations.py] and [live_locations_advanced.py],
                          the history buffer and the distance travelled;
    - [ShareableLinks]  : [shareable_links.py], [generate_links], and its
                          two sibling generators;
    - [AntiGPS64]       : [analyze_threat_level] in binary64;
    - [LiveLocations64] : [calculate_distance] and [get_distance_traveled]
                          in binary64.

    Numbers.  Python floats are binary64, and the embedding has two layers.
    [AntiGPS] and [LiveLocations] carry the objects and their effects; their
    numbers are exact (rationals, and real numbers where [sin], [cos] and
    [atan2] are needed), and they are used for what does not hang on a
    rounding: frames, logs, orders, ranges of the draws.  Whatever is decided
    by a rounded sum or by the domain of [math.sqrt] is stated over the
    kernel's binary64 floats instead: the classifier in [AntiGPS64], the
    distance in [LiveLocations64], the printing of coordinates in
    [ShareableLinks].  [sin], [cos], [atan2] and [pow] come from the C
    library, which no standard fixes bit for bit: [Binary64.Libm] takes them
    as given, and concrete inputs are evaluated at values recorded from
    glibc.

    Effects.  [random], [datetime.now], [print] and the log file are
    threaded through an explicit world: a stream of draws with a read
    position, a clock that advances when it is read, the list of lines
    written so far, and a file system that tells whether the log can be
    written at an instant.  A call that can raise ends in a
    [Completion]. *)

From Stdlib Require Import List String Ascii ZArith QArith Qround Bool Lia Lqa.
From Stdlib Require Import DecimalString Reals Lra Permutation.
From Stdlib Require PrimFloat FloatOps SpecFloat FloatAxioms.
Import ListNotations.

(** ** How a call ends *)

(** A call that can raise returns, or an exception of the named class
    leaves it. *)
Inductive Completion (A : Type) : Type :=
| Returned (a : A)
| Raised (exc : string).

Arguments Returned {A} a.
Arguments Raised {A} exc.

(** What follows a call is skipped when it has raised. *)
Definition and_then {A B : Type} (c : Completion A) (k : A -> Completion B)
  : Completion B :=
  match c with
  | Returned a => k a
  | Raised exc => Raised exc
  end.

(** ** Python built-ins used by the sources, over exact rationals *)

Module Py.

Open Scope Q_scope.

(** [sum(xs)]: the accumulator starts at [0] and adds from the left. *)
Definition sum (xs : list Q) : Q := fold_left Qplus xs 0.

(** [a > b]. *)
Definition gt (a b : Q) : bool := negb (Qle_bool a b).

(** [len(xs)] as a number. *)
Definition len {A : Type} (xs : list A) : Q := inject_Z (Z.of_nat (List.length xs)).

(** [str.upper] on ASCII letters; the sources apply it to validated
    configuration words and to threat level names only. *)
Definition upper_ascii (c : ascii) : ascii :=
  let n := nat_of_ascii c in
  if ((97 <=? n) && (n <=? 122))%nat then ascii_of_nat (n - 32) else c.

Fixpoint upper (s : string) : string :=
  match s with
  | EmptyString => EmptyString
  | String c r => String (upper_ascii c) (upper r)
  end.

(** ["s" * n]. *)
Fixpoint repeat_string (s : string) (n : nat) : string :=
  match n with
  | O => EmptyString
  | S k => (s ++ repeat_string s k)%string
  end.

(** [s[:n]]. *)
Definition take (n : nat) (s : string) : string := substring 0 n s.

Definition dec (z : Z) : string := NilZero.string_of_uint (N.to_uint (Z.to_N z)).

Definition pad_zeros (width : nat) (s : string) : string :=
  (repeat_string "0" (width - String.length s) ++ s)%string.

(** Rounding to the nearest integer, ties to even, as [format] does on the
    exact value of its argument. *)
Definition round_half_even (q : Q) : Z :=
  let f := Qfloor q in
  match Qcompare (q - inject_Z f) (1 # 2) with
  | Lt => f
  | Gt => (f + 1)%Z
  | Eq => if Z.even f then f else (f + 1)%Z
  end.

(** [f"{q:.df}"]. *)
Definition format_fixed (d : nat) (q : Q) : string :=
  let scale := (10 ^ Z.of_nat d)%Z in
  let n := Z.abs (round_half_even (q * inject_Z scale)) in
  ((if Qle_bool 0 q then "" else "-")
     ++ dec (n / scale)
     ++ (match d with
         | O => ""
         | _ => "." ++ pad_zeros d (dec (n mod scale))
         end))%string.

End Py.

(** ** [anti_gps.py]: class [AntiGPSSystem] *)

Module AntiGPS.

Open Scope Q_scope.
Open Scope string_scope.

(** The threat level words the class hands around as string literals. *)
Inductive ThreatLevel : Set := TNone | Low | Medium | High | Critical.

Definition threat_name (t : ThreatLevel) : string :=
  match t with
  | TNone => "none"
  | Low => "low"
  | Medium => "medium"
  | High => "high"
  | Critical => "critical"
  end.

(** Position in the order none < low < medium < high < critical. *)
Definition severity_rank (t : ThreatLevel) : nat :=
  match t with
  | TNone => 0
  | Low => 1
  | Medium => 2
  | High => 3
  | Critical => 4
  end.

Definition severity_le (a b : ThreatLevel) : Prop :=
  (severity_rank a <= severity_rank b)%nat.

(** The [signal_info] dictionary built by [detect_gps_signals]. *)
Module Signal.
Record t : Type := mk {
  frequency : string;
  frequency_mhz : Q;
  strength : Q;
  quality : Q;
  timestamp : nat;
  threat_level : ThreatLevel
}.
End Signal.

(** The [jamming_result] dictionary built by [signal_jamming]. *)
Module Jamming.
Record t : Type := mk {
  frequency : string;
  jamming_power : Q;
  success : bool;
  timestamp : nat
}.
End Jamming.

Module FakeLocation.
Record t : Type := mk { lat : Q; lon : Q; name : string }.
End FakeLocation.

Module Spoof.
Record t : Type := mk {
  original_location : string;
  spoofed_location : FakeLocation.t;
  timestamp : nat;
  method : string
}.
End Spoof.

Module Hopping.
Record t : Type := mk {
  pattern : list Q;
  interval : Q;
  timestamp : nat;
  method : string
}.
End Hopping.

Module Encrypted.
Record t : Type := mk {
  encryption_key : string;
  algorithm : string;
  timestamp : nat;
  method : string
}.
End Encrypted.

(** [signal_jamming] returns [False] or a list of results. *)
Inductive JamReturn : Type :=
| JamFalse : JamReturn
| JamList : list Jamming.t -> JamReturn.

(** A value of the [protection_results] dictionary. *)
Inductive ActionResult : Type :=
| RSpoof : Spoof.t -> ActionResult
| RJam : JamReturn -> ActionResult
| RHop : Hopping.t -> ActionResult
| REncrypt : Encrypted.t -> ActionResult.

Module LogEntry.
Record t : Type := mk {
  timestamp : nat;
  signals_detected : nat;
  threat_level : ThreatLevel;
  protection_active : bool;
  detection_mode : string
}.
End LogEntry.

Module Status.
Record t : Type := mk {
  active : bool;
  detection_mode : string;
  protection_level : string;
  signals_detected : nat;
  jamming_active : bool;
  threat_level : ThreatLevel
}.
End Status.

(** The attributes of an [AntiGPSSystem] that are written after
    [__init__].  [gps_frequencies], [protection_methods] and [log_file] are
    assigned once in [__init__] and never again: they are the constants
    below. *)
Record AntiGPSSystem : Type := mkSystem {
  is_active : bool;
  detection_mode : string;
  protection_level : string;
  gps_signals_detected : list Signal.t;
  jamming_active : bool
}.

Definition gps_frequencies : list (string * Q) :=
  [("L1", 1575.42); ("L2", 1227.60); ("L5", 1176.45)].

Definition protection_methods : list (string * list string) :=
  [("low", ["signal_detection"; "location_spoofing"]);
   ("medium", ["signal_detection"; "location_spoofing"; "signal_jamming"]);
   ("high", ["signal_detection"; "location_spoofing"; "signal_jamming";
             "frequency_hopping"]);
   ("maximum", ["signal_detection"; "location_spoofing"; "signal_jamming";
                "frequency_hopping"; "encryption"])].

(** The world a method runs in: the object, the random source ([rng n] is
    the [n]-th value [random.random()] returns, [rng_pos] the number of
    draws so far), the clock, standard output, the lines of the log file,
    and the file system: [writable t] tells whether the log file can be
    opened and written at instant [t]. *)
Record World : Type := mkWorld {
  sys : AntiGPSSystem;
  rng : nat -> Q;
  rng_pos : nat;
  clock : nat;
  stdout : list string;
  log : list LogEntry.t;
  writable : nat -> bool
}.

Definition M (A : Type) : Type := World -> A * World.

Definition ret {A : Type} (a : A) : M A := fun w => (a, w).

Definition bind {A B : Type} (m : M A) (k : A -> M B) : M B :=
  fun w => let (a, w') := m w in k a w'.

Notation "x <- m ;; k" := (bind m (fun x => k))
  (at level 61, m at next level, right associativity).
Notation "m ;;; k" := (bind m (fun _ => k))
  (at level 61, right associativity).

(** [for x in xs: acc = body(acc, x)]. *)
Fixpoint for_each {A S : Type} (xs : list A) (body : S -> A -> M S) (acc : S) : M S :=
  match xs with
  | [] => ret acc
  | x :: r => acc' <- body acc x ;; for_each r body acc'
  end.

Definition with_sys (f : AntiGPSSystem -> AntiGPSSystem) : M unit :=
  fun w => (tt, mkWorld (f (sys w)) (rng w) (rng_pos w) (clock w) (stdout w) (log w)
                         (writable w)).

Definition get_sys : M AntiGPSSystem := fun w => (sys w, w).

(** [print(line)]. *)
Definition print (line : string) : M unit :=
  fun w => (tt, mkWorld (sys w) (rng w) (rng_pos w) (clock w) (stdout w ++ [line]) (log w)
                         (writable w)).

(** [random.random()]. *)
Definition random : M Q :=
  fun w => (rng w (rng_pos w),
            mkWorld (sys w) (rng w) (S (rng_pos w)) (clock w) (stdout w) (log w)
                    (writable w)).

(** [random.uniform(a, b)] is [a + (b - a) * random()]. *)
Definition uniform_value (a b u : Q) : Q := a + (b - a) * u.

Definition uniform (a b : Q) : M Q :=
  u <- random ;; ret (uniform_value a b u).

(** [random.choice(xs)], drawn as [random.choices] draws:
    [xs[floor(random() * len(xs))]]. *)
Definition choice {A : Type} (xs : list A) (default : A) : M A :=
  u <- random ;;
  ret (nth (Z.to_nat (Qfloor (u * Py.len xs))) xs default).

(** [datetime.now().isoformat()]: the instant read, the clock moving on. *)
Definition now : M nat :=
  fun w => (clock w,
            mkWorld (sys w) (rng w) (rng_pos w) (S (clock w)) (stdout w) (log w)
                    (writable w)).

(** [with open(self.log_file, "a") as f: f.write(json.dumps(log_entry) + "\n")]:
    one more line in the file when it can be written; otherwise [open] or
    [write] raises [OSError] and the file is as it was. *)
Definition append_log (e : LogEntry.t) : M (Completion unit) :=
  fun w =>
    if writable w (clock w) then
      (Returned tt,
       mkWorld (sys w) (rng w) (rng_pos w) (clock w) (stdout w) (log w ++ [e])
               (writable w))
    else (Raised "OSError", w).

Definition set_is_active (b : bool) (s : AntiGPSSystem) : AntiGPSSystem :=
  mkSystem b (detection_mode s) (protection_level s) (gps_signals_detected s)
           (jamming_active s).

Definition set_detection_mode_field (m : string) (s : AntiGPSSystem) : AntiGPSSystem :=
  mkSystem (is_active s) m (protection_level s) (gps_signals_detected s)
           (jamming_active s).

Definition set_protection_level_field (l : string) (s : AntiGPSSystem) : AntiGPSSystem :=
  mkSystem (is_active s) (detection_mode s) l (gps_signals_detected s)
           (jamming_active s).

Definition extend_gps_signals_detected (xs : list Signal.t) (s : AntiGPSSystem)
  : AntiGPSSystem :=
  mkSystem (is_active s) (detection_mode s) (protection_level s)
           (gps_signals_detected s ++ xs) (jamming_active s).

Definition set_jamming_active (b : bool) (s : AntiGPSSystem) : AntiGPSSystem :=
  mkSystem (is_active s) (detection_mode s) (protection_level s)
           (gps_signals_detected s) b.

(** [__init__]. *)
Definition init : M unit :=
  with_sys (fun _ => mkSystem false "passive" "medium" [] false) ;;;
  print "🛡️ Anti GPS System Initialized" ;;;
  print (Py.repeat_string "=" 50).

(** One turn of the loop of [detect_gps_signals]. *)
Definition scan_band (signals : list Signal.t) (band : string * Q)
  : M (list Signal.t) :=
  let (freq_name, freq) := band in
  signal_strength <- uniform 0.1 1.0 ;;
  signal_quality <- uniform 0.5 0.95 ;;
  if Py.gt signal_strength 0.3 then
    ts <- now ;;
    let signal_info :=
      Signal.mk freq_name freq signal_strength signal_quality ts
                (if Py.gt signal_strength 0.7 then High else Medium) in
    print ("⚠️  Detected " ++ freq_name ++ " signal: "
             ++ Py.format_fixed 2 signal_strength ++ " strength") ;;;
    ret (signals ++ [signal_info])%list
  else ret signals.

Definition detect_gps_signals : M (list Signal.t) :=
  print "🔍 Scanning for GPS signals..." ;;;
  signals <- for_each gps_frequencies scan_band [] ;;
  with_sys (extend_gps_signals_detected signals) ;;;
  ret signals.

Definition analyze_threat_level (signals : list Signal.t) : ThreatLevel :=
  match signals with
  | [] => TNone
  | _ :: _ =>
      let total_strength := Py.sum (map Signal.strength signals) in
      let avg_quality := Py.sum (map Signal.quality signals) / Py.len signals in
      if Py.gt total_strength 2.0 && Py.gt avg_quality 0.8 then Critical
      else if Py.gt total_strength 1.5 && Py.gt avg_quality 0.7 then High
      else if Py.gt total_strength 1.0 then Medium
      else Low
  end.

Definition fake_locations : list FakeLocation.t :=
  [FakeLocation.mk 40.7128 (-74.0060) "New York";
   FakeLocation.mk 51.5074 (-0.1278) "London";
   FakeLocation.mk 35.6762 139.6503 "Tokyo";
   FakeLocation.mk (-33.8688) 151.2093 "Sydney";
   FakeLocation.mk 55.7558 37.6176 "Moscow"].

Definition location_spoofing : M Spoof.t :=
  print "📍 Activating location spoofing..." ;;;
  fake_location <- choice fake_locations (FakeLocation.mk 0 0 "") ;;
  ts <- now ;;
  let spoof_data := Spoof.mk "PROTECTED" fake_location ts "location_spoofing" in
  print ("🎭 Location spoofed to: " ++ FakeLocation.name fake_location) ;;;
  ret spoof_data.

(** One turn of the loop of [signal_jamming]. *)
Definition jam_signal (jamming_results : list Jamming.t) (signal : Signal.t)
  : M (list Jamming.t) :=
  jamming_power <- uniform 0.6 0.95 ;;
  let jamming_success := Py.gt jamming_power 0.7 in
  ts <- now ;;
  let jamming_result :=
    Jamming.mk (Signal.frequency signal) jamming_power jamming_success ts in
  let status := if jamming_success then "✅" else "❌" in
  print (status ++ " Jamming " ++ Signal.frequency signal ++ ": "
           ++ Py.format_fixed 2 jamming_power ++ " power") ;;;
  ret (jamming_results ++ [jamming_result])%list.

Definition signal_jamming (signals : list Signal.t) : M JamReturn :=
  match signals with
  | [] => ret JamFalse
  | _ :: _ =>
      print "📡 Activating signal jamming..." ;;;
      jamming_results <- for_each signals jam_signal [] ;;
      with_sys (set_jamming_active (existsb Jamming.success jamming_results)) ;;;
      ret (JamList jamming_results)
  end.

Definition hop_patterns : list (list Q) :=
  [[1575.42; 1227.60; 1176.45];
   [2400.0; 5800.0; 900.0];
   [433.0; 868.0; 2400.0]].

Definition frequency_hopping : M Hopping.t :=
  print "🔄 Activating frequency hopping..." ;;;
  current_pattern <- choice hop_patterns [] ;;
  hop_interval <- uniform 0.1 0.5 ;;
  ts <- now ;;
  let hopping_data := Hopping.mk current_pattern hop_interval ts "frequency_hopping" in
  print ("🔄 Hopping pattern: " ++ Py.dec (Z.of_nat (List.length current_pattern))
           ++ " frequencies, " ++ Py.format_fixed 2 hop_interval ++ "s interval") ;;;
  ret hopping_data.

Definition hex_digits : list string :=
  ["0"; "1"; "2"; "3"; "4"; "5"; "6"; "7"; "8"; "9"; "A"; "B"; "C"; "D"; "E"; "F"].

(** [''.join(random.choices(population, k=k))]. *)
Fixpoint choices_joined (population : list string) (k : nat) : M string :=
  match k with
  | O => ret ""
  | S k' =>
      c <- choice population "" ;;
      r <- choices_joined population k' ;;
      ret (c ++ r)
  end.

Definition encrypt_location_data : M Encrypted.t :=
  print "🔐 Encrypting location data..." ;;;
  encryption_key <- choices_joined hex_digits 32 ;;
  ts <- now ;;
  let encrypted_data := Encrypted.mk encryption_key "AES-256" ts "encryption" in
  print ("🔐 Data encrypted with key: " ++ Py.take 8 encryption_key ++ "...") ;;;
  ret encrypted_data.

(** The [protection_results] dictionaries, as association lists in the
    order of their keys. *)
Definition apply_protection (signals : list Signal.t)
  : M (list (string * ActionResult)) :=
  print "🛡️ Applying maximum protection..." ;;;
  spoof <- location_spoofing ;;
  jam <- signal_jamming signals ;;
  hop <- frequency_hopping ;;
  enc <- encrypt_location_data ;;
  ret [("location_spoofing", RSpoof spoof);
       ("signal_jamming", RJam jam);
       ("frequency_hopping", RHop hop);
       ("encryption", REncrypt enc)].

Definition apply_basic_protection (signals : list Signal.t)
  : M (list (string * ActionResult)) :=
  print "🛡️ Applying basic protection..." ;;;
  spoof <- location_spoofing ;;
  jam <- signal_jamming signals ;;
  ret [("location_spoofing", RSpoof spoof);
       ("signal_jamming", RJam jam)].

Definition log_activity (signals : list Signal.t) : M (Completion unit) :=
  ts <- now ;;
  s <- get_sys ;;
  append_log (LogEntry.mk ts (List.length signals) (analyze_threat_level signals)
                          (jamming_active s) (detection_mode s)).

(** The body of the [while self.is_active] loop of [continuous_monitoring],
    up to the log line; [time.sleep(2)] has no effect on the world.  The
    body has no [try]: what [log_activity] raises leaves the body. *)
Definition monitoring_iteration : M (Completion unit) :=
  signals <- detect_gps_signals ;;
  match signals with
  | [] => ret tt
  | _ :: _ =>
      let threat_level := analyze_threat_level signals in
      print ("🚨 Threat level: " ++ Py.upper (threat_name threat_level)) ;;;
      match threat_level with
      | High | Critical => _ <- apply_protection signals ;; ret tt
      | Medium => _ <- apply_basic_protection signals ;; ret tt
      | _ => ret tt
      end
  end ;;;
  log_activity signals.

(** The loop itself, cut after [fuel] iterations: it ends earlier only
    when [is_active] is found cleared or when a pass raises, which ends
    the loop and the method. *)
Fixpoint monitoring_loop (fuel : nat) : M (Completion unit) :=
  match fuel with
  | O => ret (Returned tt)
  | S k =>
      s <- get_sys ;;
      if is_active s then
        pass <- monitoring_iteration ;;
        match pass with
        | Returned _ => monitoring_loop k
        | Raised exc => ret (Raised exc)
        end
      else ret (Returned tt)
  end.

Definition continuous_monitoring (fuel : nat) : M (Completion unit) :=
  print "🔄 Starting continuous monitoring..." ;;;
  with_sys (set_is_active true) ;;;
  monitoring_loop fuel.

(** [level in self.protection_methods]: membership among the keys. *)
Definition set_protection_level (level : string) : M unit :=
  if existsb (String.eqb level) (map fst protection_methods) then
    with_sys (set_protection_level_field level) ;;;
    print ("🛡️ Protection level set to: " ++ Py.upper level)
  else
    print "❌ Invalid protection level. Use: low, medium, high, maximum".

Definition set_detection_mode (mode : string) : M unit :=
  let valid_modes := ["passive"; "active"; "aggressive"] in
  if existsb (String.eqb mode) valid_modes then
    with_sys (set_detection_mode_field mode) ;;;
    print ("🔍 Detection mode set to: " ++ Py.upper mode)
  else
    print "❌ Invalid detection mode. Use: passive, active, aggressive".

Definition get_status : M Status.t :=
  s <- get_sys ;;
  ret (Status.mk (is_active s) (detection_mode s) (protection_level s)
                 (List.length (gps_signals_detected s)) (jamming_active s)
                 (analyze_threat_level (gps_signals_detected s))).

Definition stop_monitoring : M unit :=
  with_sys (set_is_active false) ;;;
  print "🛑 Monitoring stopped".

(** The methods of the class, as the operations a client can invoke. *)
Inductive Op : Type :=
| OpDetect
| OpLocationSpoofing
| OpSignalJamming (signals : list Signal.t)
| OpFrequencyHopping
| OpEncrypt
| OpContinuousMonitoring (fuel : nat)
| OpApplyProtection (signals : list Signal.t)
| OpApplyBasicProtection (signals : list Signal.t)
| OpLogActivity (signals : list Signal.t)
| OpSetProtectionLevel (level : string)
| OpSetDetectionMode (mode : string)
| OpGetStatus
| OpStopMonitoring.

Definition run_op (op : Op) (w : World) : World :=
  match op with
  | OpDetect => snd (detect_gps_signals w)
  | OpLocationSpoofing => snd (location_spoofing w)
  | OpSignalJamming signals => snd (signal_jamming signals w)
  | OpFrequencyHopping => snd (frequency_hopping w)
  | OpEncrypt => snd (encrypt_location_data w)
  | OpContinuousMonitoring fuel => snd (continuous_monitoring fuel w)
  | OpApplyProtection signals => snd (apply_protection signals w)
  | OpApplyBasicProtection signals => snd (apply_basic_protection signals w)
  | OpLogActivity signals => snd (log_activity signals w)
  | OpSetProtectionLevel level => snd (set_protection_level level w)
  | OpSetDetectionMode mode => snd (set_detection_mode mode w)
  | OpGetStatus => snd (get_status w)
  | OpStopMonitoring => snd (stop_monitoring w)
  end.

Definition run_ops (ops : list Op) (w : World) : World :=
  fold_left (fun w' op => run_op op w') ops w.

(** A world before [__init__] has run, and the world [AntiGPSSystem()]
    leaves; the log file is writable throughout. *)
Definition blank (r : nat -> Q) : World :=
  mkWorld (mkSystem false "" "" [] false) r 0 0 [] [] (fun _ => true).

Definition fresh (r : nat -> Q) : World := snd (init (blank r)).

(** *** Vocabulary of the statements *)

(** Σ over a list. *)
Fixpoint total (xs : list Q) : Q :=
  match xs with
  | [] => 0
  | x :: r => x + total r
  end.





(** [old] is an initial segment of [new]. *)
Definition extends {A : Type} (old new : list A) : Prop :=
  exists added : list A, new = (old ++ added)%list.

(** Every run of [m] takes the object from a state to one related to it
    by [R]. *)
Definition respects (R : AntiGPSSystem -> AntiGPSSystem -> Prop) {A : Type}
           (m : M A) : Prop :=
  forall w : World, R (sys w) (sys (snd (m w))).

(** The detected-signals list only grows. *)
Definition grows (a b : AntiGPSSystem) : Prop :=
  extends (gps_signals_detected a) (gps_signals_detected b).

(** What one scan draws in world [w]: for the [k]-th band its name, its
    frequency, and the strength and quality drawn for it. *)
Fixpoint band_draws_from (bands : list (string * Q)) (r : nat -> Q) (pos : nat)
  : list (string * Q * Q * Q) :=
  match bands with
  | [] => []
  | (freq_name, freq) :: rest =>
      (freq_name, freq, uniform_value 0.1 1.0 (r pos),
       uniform_value 0.5 0.95 (r (S pos)))
      :: band_draws_from rest r (S (S pos))
  end.

Definition band_draws (w : World) : list (string * Q * Q * Q) :=
  band_draws_from gps_frequencies (rng w) (rng_pos w).

Definition drawn_strength (d : string * Q * Q * Q) : Q := snd (fst d).

Definition signal_draw (x : Signal.t) : string * Q * Q * Q :=
  (Signal.frequency x, Signal.frequency_mhz x, Signal.strength x, Signal.quality x).

(** A random source that always returns one half. *)
Definition half : nat -> Q := fun _ => 1 # 2.

(** One that always returns three tenths. *)
Definition three_tenths : nat -> Q := fun _ => 3 # 10.

(** One jamming result for each signal, in order, a success exactly when
    its power exceeds 0.7. *)
Definition jams (signals : list Signal.t) (results : list Jamming.t) : Prop :=
  List.length results = List.length signals
  /\ map Jamming.frequency results = map Signal.frequency signals
  /\ Forall (fun r => Jamming.success r = Py.gt (Jamming.jamming_power r) 0.7)
            results.

(** [random.random()] returns values in [[0, 1)]. *)
Definition unit_draws (r : nat -> Q) : Prop := forall n : nat, 0 <= r n /\ r n < 1.

(** Every run of [m] takes the world to one related to it by [W]. *)
Definition wrespects (W : World -> World -> Prop) {A : Type} (m : M A) : Prop :=
  forall w : World, W w (snd (m w)).

(** The log file, the random source and the file system are the same. *)
Definition same_log (a b : World) : Prop :=
  log a = log b /\ rng a = rng b /\ writable a = writable b.

(** The switch and the two settings are the same. *)
Definition same_settings (a b : AntiGPSSystem) : Prop :=
  is_active a = is_active b
  /\ detection_mode a = detection_mode b
  /\ protection_level a = protection_level b.

(** What the loop body does between the scan and the log line. *)
Definition respond (signals : list Signal.t) : M unit :=
  match signals with
  | [] => ret tt
  | _ :: _ =>
      let threat_level := analyze_threat_level signals in
      print ("🚨 Threat level: " ++ Py.upper (threat_name threat_level)) ;;;
      match threat_level with
      | High | Critical => _ <- apply_protection signals ;; ret tt
      | Medium => _ <- apply_basic_protection signals ;; ret tt
      | _ => ret tt
      end
  end.

(** The instant at which the pass that starts in [w] writes its log
    line: the clock as the scan and the response leave it, read once more
    for the timestamp of the entry. *)
Definition write_instant (w : World) : nat :=
  let signals := fst (detect_gps_signals w) in
  S (clock (snd (respond signals (snd (detect_gps_signals w))))).

(** The world [w] on the file system [d]. *)
Definition on_disk (d : nat -> bool) (w : World) : World :=
  mkWorld (sys w) (rng w) (rng_pos w) (clock w) (stdout w) (log w) d.

(** A file system on which the log can be written before instant [t]
    only. *)
Definition full_from (t : nat) : nat -> bool := fun n => (n <? t)%nat.

(** Draws for two passes: ten draws of three tenths (three signals of
    strength 0.37, a medium pass whose jamming succeeds), then one half
    and zeros (one signal of strength 0.55, a low pass). *)
Definition medium_then_low : nat -> Q :=
  fun n => if (n <? 10)%nat then 3 # 10 else if (n =? 10)%nat then 1 # 2 else 0.

(** What the sampler promises of a signal it reports. *)
Definition well_sampled (x : Signal.t) : Prop :=
  In (Signal.frequency x, Signal.frequency_mhz x) gps_frequencies
  /\ 0.3 < Signal.strength x /\ Signal.strength x <= 1.0
  /\ 0.5 <= Signal.quality x /\ Signal.quality x <= 0.95
  /\ Signal.threat_level x
     = (if Py.gt (Signal.strength x) 0.7 then High else Medium).

(** The recognised configuration words. *)
Definition tiers : list string := ["low"; "medium"; "high"; "maximum"].

Definition modes : list string := ["passive"; "active"; "aggressive"].

End AntiGPS.

(** ** [live_locations.py] and [live_locations_advanced.py]: the history
       buffer and the distance travelled *)

Module LiveLocations.

Open Scope R_scope.

(** The dictionary [get_current_location] returns. *)
Record Location : Type := mkLocation {
  name : string;
  lat : R;
  lon : R;
  country : string;
  timestamp : nat;
  accuracy : R;
  speed : R;
  heading : R;
  altitude : R
}.

(** The [log_entry] of [log_location]; the coordinates are kept as the
    pair that [log_location] formats. *)
Record LogEntry : Type := mkLogEntry {
  log_timestamp : nat;
  log_location_name : string;
  log_coordinates : R * R;
  log_speed : R;
  log_accuracy : R
}.

(** [LiveLocationTracker]: the attributes written after [__init__]
    ([sample_locations] and [log_file] are constants of the class). *)
Record LiveLocationTracker : Type := mkTracker {
  is_tracking : bool;
  current_location : option Location;
  location_history : list Location;
  tracking_interval : R
}.

Record World : Type := mkWorld {
  tracker : LiveLocationTracker;
  log : list LogEntry;
  stdout : list string
}.

Definition init : LiveLocationTracker := mkTracker false None [] 1.

(** [xs[start:]] for any integer [start]. *)
Definition slice_from {A : Type} (start : Z) (xs : list A) : list A :=
  let n := Z.of_nat (List.length xs) in
  let i := if (start <? 0)%Z then Z.max 0 (n + start) else Z.min start n in
  skipn (Z.to_nat i) xs.

Definition radians (x : R) : R := x * (PI / 180).

(** [math.atan2(y, x)] on real numbers. *)
Definition atan2 (y x : R) : R :=
  if Rlt_dec 0 x then atan (y / x)
  else if Rlt_dec x 0 then
         if Rle_dec 0 y then atan (y / x) + PI else atan (y / x) - PI
       else if Rlt_dec 0 y then PI / 2
            else if Rlt_dec y 0 then - (PI / 2)
                 else 0.

(** The [a] of [calculate_distance], its arguments already in radians. *)
Definition haversine_a (lat1 lon1 lat2 lon2 : R) : R :=
  let dlat := lat2 - lat1 in
  let dlon := lon2 - lon1 in
  (sin (dlat / 2)) ^ 2 + cos lat1 * cos lat2 * (sin (dlon / 2)) ^ 2.

Definition calculate_distance (lat1 lon1 lat2 lon2 : R) : R :=
  let R_km := 6371 in
  let lat1 := radians lat1 in
  let lon1 := radians lon1 in
  let lat2 := radians lat2 in
  let lon2 := radians lon2 in
  let a := haversine_a lat1 lon1 lat2 lon2 in
  let c := 2 * atan2 (sqrt a) (sqrt (1 - a)) in
  R_km * c.

(** [log_location] when the write succeeds: one more line in the log
    file. *)
Definition log_location (location : Location) (w : World) : World :=
  mkWorld (tracker w)
          (log w ++ [mkLogEntry (timestamp location) (name location)
                                (lat location, lon location)
                                (speed location) (accuracy location)])
          (stdout w).

(** The body of [while self.is_tracking] in [tracking_loop] (the same text
    in both trackers); the sleeps leave the world as it is.  What
    [get_current_location] draws is an input of the body; so is the outcome
    of writing the log line: [None] when [log_location] returns, [Some e]
    when it raises [e] and the [except] branch prints it. *)
Definition tracking_iteration (location : Location) (log_error : option string)
           (w : World) : World :=
  let t := tracker w in
  let history := (location_history t ++ [location])%list in
  let history :=
    if (100 <? List.length history)%nat then slice_from (-100) history
    else history in
  let w1 :=
    mkWorld (mkTracker (is_tracking t) (Some location) history (tracking_interval t))
            (log w) (stdout w) in
  match log_error with
  | None => log_location location w1
  | Some e =>
      mkWorld (tracker w1) (log w1)
              (stdout w1 ++ [("❌ Tracking error: " ++ e)%string])
  end.

(** The iterations of the loop over the locations drawn, in order. *)
Definition tracking_loop (draws : list (Location * option string)) (w : World)
  : World :=
  fold_left (fun w' d => tracking_iteration (fst d) (snd d) w') draws w.

Definition get_location_history (limit : Z) (t : LiveLocationTracker)
  : list Location :=
  match location_history t with
  | [] => []
  | _ :: _ => slice_from (- limit) (location_history t)
  end.

Definition no_location : Location := mkLocation "" 0 0 "" 0 0 0 0 0.

(** The body of the loop of [get_distance_traveled] at index [i]. *)
Definition add_leg (h : list Location) (total_distance : R) (i : nat) : R :=
  let prev := nth (i - 1) h no_location in
  let curr := nth i h no_location in
  let distance :=
    calculate_distance (lat prev) (lon prev) (lat curr) (lon curr) in
  total_distance + distance.

(** [range(1, len(h))] is [seq 1 (len(h) - 1)]. *)
Definition get_distance_traveled (t : LiveLocationTracker) : R :=
  let h := location_history t in
  if (List.length h <? 2)%nat then 0
  else fold_left (add_leg h) (seq 1 (List.length h - 1)) 0.

(** Reference definitions, from the specification's words: the haversine
    formula on a sphere of radius 6371 km, and its sum over consecutive
    samples. *)
Definition hav (theta : R) : R := (sin (theta / 2))².

Definition haversine_km (p q : Location) : R :=
  let phi1 := radians (lat p) in
  let phi2 := radians (lat q) in
  let dphi := radians (lat q) - radians (lat p) in
  let dlambda := radians (lon q) - radians (lon p) in
  2 * 6371 * asin (sqrt (hav dphi + cos phi1 * cos phi2 * hav dlambda)).


(** Whether the write of a log line failed. *)
Definition failed (outcome : option string) : bool :=
  match outcome with
  | Some _ => true
  | None => false
  end.

(** The last [n] elements of a list. *)
Definition lastn {A : Type} (n : nat) (xs : list A) : list A :=
  skipn (List.length xs - n) xs.

End LiveLocations.

(** ** Printing binary64 floats the way Python does *)

Module PyFloat.

Import SpecFloat FloatOps.

Definition float : Set := PrimFloat.float.

Open Scope Q_scope.
Open Scope string_scope.

(** [10 ** z] as a rational. *)
Definition pow10 (z : Z) : Q := Qpower 10 z.

Definition two_pow (z : Z) : Q := Qpower 2 z.

(** The decimal exponent [n] of a positive rational [v]:
    [10^(n-1) <= v < 10^n], searched downwards from [start]. *)
Fixpoint decimal_exponent_from (fuel : nat) (start : Z) (v : Q) : Z :=
  match fuel with
  | O => start
  | S k =>
      if Qle_bool (pow10 (start - 1)) v then start
      else decimal_exponent_from k (start - 1) v
  end.

Definition decimal_exponent (v : Q) : Z := decimal_exponent_from 640 310 v.

(** The decimals that read back as the float of mantissa [m] and binary
    exponent [e] are those between the midpoints to its two neighbours, the
    midpoints themselves included when [m] is even.  Below a power of two
    the lower neighbour is at half the distance. *)
Definition is_pow2 (m : positive) : bool :=
  (Zpos m =? 2 ^ Z.log2 (Zpos m))%Z.

Definition reads_back (m : positive) (e : Z) (c : Q) : bool :=
  let v := inject_Z (Zpos m) * two_pow e in
  let up := two_pow (e - 1) in
  let down :=
    if is_pow2 m && (-1074 <? e)%Z then two_pow (e - 2) else two_pow (e - 1) in
  let lo := v - down in
  let hi := v + up in
  if Z.even (Zpos m) then Qle_bool lo c && Qle_bool c hi
  else negb (Qle_bool c lo) && negb (Qle_bool hi c).

(** For [k] digits: the two [k]-digit decimals around [v], the nearer one
    that reads back first (the even one on a tie). *)
Definition candidates (v : Q) (n : Z) (k : Z) : list Z :=
  let p := (n - k)%Z in
  let scaled := v / pow10 p in
  let d := Qfloor scaled in
  match Qcompare (scaled - inject_Z d) (1 # 2) with
  | Lt => [d; (d + 1)%Z]
  | Gt => [(d + 1)%Z; d]
  | Eq => if Z.even d then [d; (d + 1)%Z] else [(d + 1)%Z; d]
  end.

(** The shortest digit string that reads back, as an integer [d], with the
    power of ten [p] it is scaled by. *)
Fixpoint shortest_from (fuel : nat) (k : Z) (m : positive) (e : Z) (v : Q) (n : Z)
  : Z * Z :=
  let p := (n - k)%Z in
  match fuel with
  | O => (Qfloor (v / pow10 p), p)
  | S fuel' =>
      match filter (fun d => reads_back m e (inject_Z d * pow10 p))
                   (candidates v n k) with
      | d :: _ => (d, p)
      | [] => shortest_from fuel' (k + 1) m e v n
      end
  end.

(** Trailing zeros of the digits move into the exponent. *)
Fixpoint strip_zeros (fuel : nat) (d p : Z) : Z * Z :=
  match fuel with
  | O => (d, p)
  | S k =>
      if ((d mod 10 =? 0) && negb (d =? 0))%Z then strip_zeros k (d / 10) (p + 1)
      else (d, p)
  end.

Definition dec (z : Z) : string := NilZero.string_of_uint (N.to_uint (Z.to_N z)).

Definition zeros (n : Z) : string := Py.repeat_string "0" (Z.to_nat n).

(** [repr] of the positive float [m * 2^e]: fixed notation when the
    decimal point falls in [-4 < decpt <= 16], else exponent notation. *)
Definition repr_finite (m : positive) (e : Z) : string :=
  let v := inject_Z (Zpos m) * two_pow e in
  let n := decimal_exponent v in
  let (d0, p0) := shortest_from 17 1 m e v n in
  let (d, p) := strip_zeros 20 d0 p0 in
  let digits := dec d in
  let k := Z.of_nat (String.length digits) in
  let decpt := (k + p)%Z in
  if ((-4 <? decpt) && (decpt <=? 16))%Z then
    if (decpt <=? 0)%Z then "0." ++ zeros (- decpt) ++ digits
    else if (k <=? decpt)%Z then digits ++ zeros (decpt - k) ++ ".0"
         else substring 0 (Z.to_nat decpt) digits ++ "."
              ++ substring (Z.to_nat decpt) (Z.to_nat (k - decpt)) digits
  else
    let x := (decpt - 1)%Z in
    substring 0 1 digits
      ++ (if (1 <? k)%Z then "." ++ substring 1 (Z.to_nat (k - 1)) digits else "")
      ++ "e" ++ (if (x <? 0)%Z then "-" else "+")
      ++ Py.pad_zeros 2 (dec (Z.abs x)).

Definition sign_of (s : bool) : string := if s then "-" else "".

(** [repr(x)], which is also [str(x)] and [f"{x}"]. *)
Definition repr (x : float) : string :=
  match Prim2SF x with
  | S754_zero s => sign_of s ++ "0.0"
  | S754_infinity s => sign_of s ++ "inf"
  | S754_nan => "nan"
  | S754_finite s m e => sign_of s ++ repr_finite m e
  end.

(** [f"{x:.df}"]: the exact value rounded to [d] decimals, ties to even. *)
Definition format_fixed (d : nat) (x : float) : string :=
  match Prim2SF x with
  | S754_zero s => sign_of s ++ Py.format_fixed d 0
  | S754_infinity s => sign_of s ++ "inf"
  | S754_nan => "nan"
  | S754_finite s m e =>
      sign_of s ++ Py.format_fixed d (inject_Z (Zpos m) * two_pow e)
  end.

End PyFloat.

(** ** [shareable_links.py]: [ShareableLinksGenerator.generate_links] *)

Module ShareableLinks.

Import PyFloat.

Open Scope string_scope.

(** The location dictionary: [lat], [lon], [name] and [country] are read
    with [location[...]], the other four with [location.get(..., default)].
    Text is held as its UTF-8 bytes. *)
Record Location : Type := mkLocation {
  lat : float;
  lon : float;
  name : string;
  country : string;
  weather : option string;
  temperature : option float;
  traffic : option string;
  speed : option float
}.

(** [dict.get(key, default)]. *)
Definition get {A : Type} (field : option A) (default : A) : A :=
  match field with
  | Some v => v
  | None => default
  end.

Definition hex_digit (n : nat) : string :=
  substring n 1 "0123456789ABCDEF".

(** The bytes [urllib.parse.quote] leaves as they are: letters, digits,
    [_.-~] and the default safe character [/]. *)
Definition always_safe (c : ascii) : bool :=
  let n := nat_of_ascii c in
  ((65 <=? n) && (n <=? 90) || (97 <=? n) && (n <=? 122)
   || (48 <=? n) && (n <=? 57)
   || (n =? 95) || (n =? 46) || (n =? 45) || (n =? 126) || (n =? 47))%nat.

(** [urllib.parse.quote(s)]. *)
Fixpoint quote (s : string) : string :=
  match s with
  | EmptyString => EmptyString
  | String c r =>
      (if always_safe c then String c EmptyString
       else "%" ++ hex_digit (nat_of_ascii c / 16) ++ hex_digit (nat_of_ascii c mod 16))
        ++ quote r
  end.

Definition generate_links (location : Location) : list (string * string) :=
  let lat := repr (lat location) in
  let lon := repr (lon location) in
  let lat6 := format_fixed 6 (ShareableLinks.lat location) in
  let lon6 := format_fixed 6 (ShareableLinks.lon location) in
  let city_name := name location in
  let country := country location in
  let weather := get (weather location) "Unknown" in
  let temperature := format_fixed 1 (get (temperature location) PrimFloat.zero) in
  let traffic := get (traffic location) "Unknown" in
  let speed := format_fixed 1 (get (speed location) PrimFloat.zero) in
  let location_desc := city_name ++ ", " ++ country in
  let maps_url := "https://maps.google.com/?q=" ++ lat ++ "," ++ lon in
  [ ("google_maps", "https://www.google.com/maps?q=" ++ lat ++ "," ++ lon);
    ("apple_maps", "https://maps.apple.com/?q=" ++ lat ++ "," ++ lon);
    ("waze", "https://waze.com/ul?ll=" ++ lat ++ "," ++ lon ++ "&navigate=yes");
    ("bing_maps", "https://www.bing.com/maps?cp=" ++ lat ++ "~" ++ lon ++ "&lvl=15");
    ("openstreetmap",
     "https://www.openstreetmap.org/?mlat=" ++ lat ++ "&mlon=" ++ lon ++ "&zoom=15");
    ("whatsapp",
     "https://wa.me/?text=📍 I'm at " ++ location_desc
       ++ " (" ++ lat6 ++ ", " ++ lon6 ++ ")");
    ("telegram",
     "https://t.me/share/url?url=" ++ quote maps_url
       ++ "&text=📍 I'm at " ++ location_desc);
    ("twitter",
     "https://twitter.com/intent/tweet?text=📍 I'm at " ++ location_desc
       ++ " (" ++ lat6 ++ ", " ++ lon6 ++ ")&url=" ++ quote maps_url);
    ("facebook", "https://www.facebook.com/sharer/sharer.php?u=" ++ quote maps_url);
    ("linkedin",
     "https://www.linkedin.com/sharing/share-offsite/?url=" ++ quote maps_url);
    ("email",
     "mailto:?subject=📍 My Location&body=📍 I'm at " ++ location_desc
       ++ " (" ++ lat6 ++ ", " ++ lon6 ++ ")%0A%0AView on Google Maps: " ++ maps_url);
    ("sms",
     "sms:?body=📍 I'm at " ++ location_desc ++ " (" ++ lat6 ++ ", " ++ lon6 ++ ")");
    ("deep_link", "geo:" ++ lat ++ "," ++ lon ++ "?q=" ++ quote location_desc);
    ("qr_code_data", maps_url);
    ("custom_share",
     "📍 I'm at " ++ location_desc ++ " (" ++ lat6 ++ ", " ++ lon6
       ++ ")%0A%0A🌤️ Weather: " ++ weather ++ " | 🌡️ " ++ temperature
       ++ "°C%0A🚦 Traffic: " ++ traffic ++ " | 🚗 " ++ speed
       ++ " km/h%0A%0A🗺️ View on Google Maps: " ++ maps_url);
    ("short_text",
     "📍 " ++ location_desc ++ " (" ++ lat6 ++ ", " ++ lon6 ++ ")");
    ("detailed_text",
     "📍 Location: " ++ location_desc ++ "%0A🌤️ Weather: " ++ weather
       ++ " | 🌡️ " ++ temperature ++ "°C%0A🚦 Traffic: " ++ traffic
       ++ " | 🚗 " ++ speed ++ " km/h%0A🗺️ Maps: " ++ maps_url) ].

(** Whether one byte is quoted well: kept when it is safe, else a percent
    sign and two safe characters. *)
Definition quoted_ok (c : ascii) : bool :=
  if always_safe c then true
  else match "%" ++ hex_digit (nat_of_ascii c / 16)
                 ++ hex_digit (nat_of_ascii c mod 16) with
       | String p (String h (String l EmptyString)) =>
           Ascii.eqb p "%" && always_safe h && always_safe l
       | _ => false
       end.

(** The number of bytes of [s] that [quote] has to escape. *)
Fixpoint escaped (s : string) : nat :=
  match s with
  | EmptyString => 0
  | String c r => (if always_safe c then 0 else 1) + escaped r
  end.

(** [links[key]]. *)
Fixpoint lookup (key : string) (links : list (string * string)) : option string :=
  match links with
  | [] => None
  | (k, v) :: r => if String.eqb key k then Some v else lookup key r
  end.


(** *** The sibling generators *)

(** A call either returns its dictionary of links or raises [KeyError]
    for a key the location does not have. *)
Inductive Outcome : Type :=
| Links (links : list (string * string))
| KeyError (key : string).

(** [live_locations_advanced.py],
    [AdvancedLocationTracker.generate_shareable_links]: the same templates,
    but weather, temperature, traffic and speed are read with
    [location[...]] while the last entry is built. *)
Definition generate_shareable_links (location : Location) : Outcome :=
  let lat := repr (lat location) in
  let lon := repr (lon location) in
  let lat6 := format_fixed 6 (ShareableLinks.lat location) in
  let lon6 := format_fixed 6 (ShareableLinks.lon location) in
  let city_name := name location in
  let country := country location in
  let location_desc := city_name ++ ", " ++ country in
  let maps_url := "https://maps.google.com/?q=" ++ lat ++ "," ++ lon in
  match weather location with
  | None => KeyError "weather"
  | Some weather =>
  match temperature location with
  | None => KeyError "temperature"
  | Some temperature =>
  match traffic location with
  | None => KeyError "traffic"
  | Some traffic =>
  match speed location with
  | None => KeyError "speed"
  | Some speed =>
  Links
  [ ("google_maps", "https://www.google.com/maps?q=" ++ lat ++ "," ++ lon);
    ("apple_maps", "https://maps.apple.com/?q=" ++ lat ++ "," ++ lon);
    ("waze", "https://waze.com/ul?ll=" ++ lat ++ "," ++ lon ++ "&navigate=yes");
    ("bing_maps", "https://www.bing.com/maps?cp=" ++ lat ++ "~" ++ lon ++ "&lvl=15");
    ("openstreetmap",
     "https://www.openstreetmap.org/?mlat=" ++ lat ++ "&mlon=" ++ lon ++ "&zoom=15");
    ("whatsapp",
     "https://wa.me/?text=📍 I'm at " ++ location_desc
       ++ " (" ++ lat6 ++ ", " ++ lon6 ++ ")");
    ("telegram",
     "https://t.me/share/url?url=" ++ quote maps_url
       ++ "&text=📍 I'm at " ++ location_desc);
    ("twitter",
     "https://twitter.com/intent/tweet?text=📍 I'm at " ++ location_desc
       ++ " (" ++ lat6 ++ ", " ++ lon6 ++ ")&url=" ++ quote maps_url);
    ("facebook", "https://www.facebook.com/sharer/sharer.php?u=" ++ quote maps_url);
    ("linkedin",
     "https://www.linkedin.com/sharing/share-offsite/?url=" ++ quote maps_url);
    ("email",
     "mailto:?subject=📍 My Location&body=📍 I'm at " ++ location_desc
       ++ " (" ++ lat6 ++ ", " ++ lon6 ++ ")%0A%0AView on Google Maps: " ++ maps_url);
    ("sms",
     "sms:?body=📍 I'm at " ++ location_desc ++ " (" ++ lat6 ++ ", " ++ lon6 ++ ")");
    ("qr_code_data", maps_url);
    ("deep_link", "geo:" ++ lat ++ "," ++ lon ++ "?q=" ++ quote location_desc);
    ("custom_share",
     "📍 I'm at " ++ location_desc ++ " (" ++ lat6 ++ ", " ++ lon6
       ++ ")%0A%0A🌤️ Weather: " ++ weather ++ " | 🌡️ " ++ format_fixed 1 temperature
       ++ "°C%0A🚦 Traffic: " ++ traffic ++ " | 🚗 " ++ format_fixed 1 speed
       ++ " km/h%0A%0A🗺️ View on Google Maps: " ++ maps_url) ]
  end end end end.

(** [shareable_links_enhanced.py],
    [EnhancedShareableLinksGenerator.generate_links]. *)
Definition enhanced_generate_links (location : Location) : list (string * string) :=
  let lat := repr (lat location) in
  let lon := repr (lon location) in
  let lat6 := format_fixed 6 (ShareableLinks.lat location) in
  let lon6 := format_fixed 6 (ShareableLinks.lon location) in
  let city_name := name location in
  let country := country location in
  let weather := get (weather location) "Unknown" in
  let temperature := format_fixed 1 (get (temperature location) PrimFloat.zero) in
  let traffic := get (traffic location) "Unknown" in
  let speed := format_fixed 1 (get (speed location) PrimFloat.zero) in
  let location_desc := city_name ++ ", " ++ country in
  let maps_url := "https://maps.google.com/?q=" ++ lat ++ "," ++ lon in
  [ ("google_maps", "https://www.google.com/maps?q=" ++ lat ++ "," ++ lon);
    ("apple_maps", "https://maps.apple.com/?q=" ++ lat ++ "," ++ lon);
    ("waze", "https://waze.com/ul?ll=" ++ lat ++ "," ++ lon ++ "&navigate=yes");
    ("bing_maps", "https://www.bing.com/maps?cp=" ++ lat ++ "~" ++ lon ++ "&lvl=15");
    ("openstreetmap",
     "https://www.openstreetmap.org/?mlat=" ++ lat ++ "&mlon=" ++ lon ++ "&zoom=15");
    ("here_maps", "https://wego.here.com/location?map=lat," ++ lat ++ ",lon," ++ lon);
    ("whatsapp",
     "https://wa.me/?text=📍 I'm at " ++ location_desc
       ++ " (" ++ lat6 ++ ", " ++ lon6 ++ ")");
    ("telegram",
     "https://t.me/share/url?url=" ++ quote maps_url
       ++ "&text=📍 I'm at " ++ location_desc);
    ("twitter",
     "https://twitter.com/intent/tweet?text=📍 I'm at " ++ location_desc
       ++ " (" ++ lat6 ++ ", " ++ lon6 ++ ")&url=" ++ quote maps_url);
    ("facebook", "https://www.facebook.com/sharer/sharer.php?u=" ++ quote maps_url);
    ("linkedin",
     "https://www.linkedin.com/sharing/share-offsite/?url=" ++ quote maps_url);
    ("instagram", "https://www.instagram.com/?url=" ++ quote maps_url);
    ("discord",
     "https://discord.com/channels/@me?content=📍 I'm at " ++ location_desc
       ++ " (" ++ lat6 ++ ", " ++ lon6 ++ ")");
    ("email",
     "mailto:?subject=📍 My Location&body=📍 I'm at " ++ location_desc
       ++ " (" ++ lat6 ++ ", " ++ lon6 ++ ")%0A%0AView on Google Maps: " ++ maps_url);
    ("sms",
     "sms:?body=📍 I'm at " ++ location_desc ++ " (" ++ lat6 ++ ", " ++ lon6 ++ ")");
    ("deep_link", "geo:" ++ lat ++ "," ++ lon ++ "?q=" ++ quote location_desc);
    ("skype", "skype:?chat&topic=📍 I'm at " ++ location_desc);
    ("qr_code_data", maps_url);
    ("custom_share",
     "📍 I'm at " ++ location_desc ++ " (" ++ lat6 ++ ", " ++ lon6
       ++ ")%0A%0A🌤️ Weather: " ++ weather ++ " | 🌡️ " ++ temperature
       ++ "°C%0A🚦 Traffic: " ++ traffic ++ " | 🚗 " ++ speed
       ++ " km/h%0A%0A🗺️ View on Google Maps: " ++ maps_url);
    ("short_text",
     "📍 " ++ location_desc ++ " (" ++ lat6 ++ ", " ++ lon6 ++ ")");
    ("detailed_text",
     "📍 Location: " ++ location_desc ++ "%0A🌤️ Weather: " ++ weather
       ++ " | 🌡️ " ++ temperature ++ "°C%0A🚦 Traffic: " ++ traffic
       ++ " | 🚗 " ++ speed ++ " km/h%0A🗺️ Maps: " ++ maps_url);
    ("rich_text",
     "<h3>📍 My Location</h3><p><strong>" ++ location_desc
       ++ "</strong></p><p>Coordinates: " ++ lat6 ++ ", " ++ lon6
       ++ "</p><p>Weather: " ++ weather ++ " | Temperature: " ++ temperature
       ++ "°C</p><p>Traffic: " ++ traffic ++ " | Speed: " ++ speed
       ++ " km/h</p><p><a href='" ++ maps_url
       ++ "'>View on Google Maps</a></p>") ].

(** The links of [a] are links of [b], with the same text. *)
Definition sublinks (a b : list (string * string)) : Prop :=
  Forall (fun k => lookup k a = lookup k b) (map fst a).

(** *** The templates, from the specification's words *)




















(** *** Equality of locations as Python has it *)







Import PrimFloat.

Set Warnings "-inexact-float".

(** The location of the specification's example: [40.7128], [-74.0060]. *)
Definition new_york : Location :=
  mkLocation 40.7128%float (-74.0060)%float "New York" "USA" None None None None.




End ShareableLinks.

(** * Binary64 *)

(** ** Python's float arithmetic and its [math] module *)

Module Binary64.

Import SpecFloat FloatOps PrimFloat.

Open Scope string_scope.
Open Scope float_scope.

Set Warnings "-inexact-float".

Definition float : Set := PrimFloat.float.

(** [float(z)] for an integer: the nearest binary64, ties to even. *)
Definition of_Z (z : Z) : float := SF2Prim (binary_normalize prec emax z 0 false).

(** [sum(xs)] on floats, as CPython 3.11 adds them: [0 + x] for the first
    item, then one rounded addition per item, from the left. *)
Definition sum (xs : list float) : float := fold_left add xs zero.

(** [a > b]; false when either is NaN. *)
Definition gt (a b : float) : bool := b <? a.

(** [len(xs)] where a float is asked for. *)
Definition len {A : Type} (xs : list A) : float := of_Z (Z.of_nat (List.length xs)).

(** [random.uniform(a, b)] at the draw [u]: [a + (b - a) * random()]. *)
Definition uniform_value (a b u : float) : float := a + (b - a) * u.

(** The functions the platform's C library provides.  They are not
    specified bit for bit by any standard, so the embedding takes them as
    given; [sqrt] is, and is the kernel's. *)
Class Libm : Type := {
  libm_sin : float -> float;
  libm_cos : float -> float;
  libm_atan2 : float -> float -> float;
  libm_pow : float -> float -> float
}.

(** [math.pi] and the factor of [math.radians], [pi / 180.0]. *)
Definition pi : float := 0x1.921fb54442d18p+1.

Definition deg_to_rad : float := pi / 180.

Definition radians (x : float) : float := x * deg_to_rad.

(** [math_1] of [mathmodule.c], for a function that cannot overflow: a NaN
    result from a number, or an infinite result from a finite number, is
    [ValueError] (math domain error).  The C functions are taken to report
    errors through their results, as IEEE 754 has them do. *)
Definition math_1 (func : float -> float) (x : float) : Completion float :=
  let r := func x in
  if is_nan r && negb (is_nan x) then Raised "ValueError"
  else if is_infinity r && is_finite x then Raised "ValueError"
  else Returned r.

(** [math_2] of [mathmodule.c]. *)
Definition math_2 (func : float -> float -> float) (x y : float)
  : Completion float :=
  let r := func x y in
  if is_nan r then
    if negb (is_nan x) && negb (is_nan y) then Raised "ValueError"
    else Returned r
  else if is_infinity r then
    if is_finite x && is_finite y then Raised "OverflowError"
    else Returned r
  else Returned r.

(** [math.sqrt]. *)
Definition sqrt (x : float) : Completion float := math_1 PrimFloat.sqrt x.

Section Math.

Context {libm : Libm}.

Definition sin (x : float) : Completion float := math_1 libm_sin x.

Definition cos (x : float) : Completion float := math_1 libm_cos x.

Definition atan2 (y x : float) : Completion float := math_2 libm_atan2 y x.

(** [x ** 2], that is [float_pow] of [floatobject.c] at the exponent
    [2.0]: NaN, the infinities, the zeros and [1.0] are answered without
    the C library; otherwise [pow(|x|, 2.0)], an infinite result being
    [OverflowError]. *)
Definition square (x : float) : Completion float :=
  if is_nan x then Returned x
  else if is_infinity x then Returned (abs x)
  else if x =? 0 then Returned 0
  else
    let iv := if x <? 0 then - x else x in
    if iv =? 1 then Returned 1
    else
      let ix := libm_pow iv 2 in
      if is_infinity ix then Raised "OverflowError" else Returned ix.

End Math.

(** A C library known at finitely many arguments only: it answers with
    the recorded value there and with NaN anywhere else. *)
Definition recorded_1 (table : list (float * float)) (x : float) : float :=
  match find (fun entry => Leibniz.eqb (fst entry) x) table with
  | Some entry => snd entry
  | None => nan
  end.

Definition recorded_2 (table : list (float * float * float)) (x y : float) : float :=
  match find (fun entry => Leibniz.eqb (fst (fst entry)) x
                           && Leibniz.eqb (snd (fst entry)) y) table with
  | Some entry => snd entry
  | None => nan
  end.

(** What glibc 2.36 on x86-64 returns at the arguments the distances
    between New York, London, Tokyo and Paris, and between (-82, -179)
    and (82, 1), ask for. *)
Definition sin_recorded : list (float * float) :=
  [ (0x1.81d88bf91f194p-4, 0x1.8146866358a76p-4);
    (0x1.4a17498a1f999p-1, 0x1.33b1ca61a51d2p-1);
    (-0x1.1af01ba981df0p-3, -0x1.1a09ead5fb55fp-3);
    (0x1.38446bfa2107cp+0, 0x1.e0c859dbf64b1p-1);
    (0x1.d71feeee40a60p-4, 0x1.d6162c6ceef3fp-4);
    (-0x1.32ba16149be66p+0, -0x1.dcdc3ed92fd55p-1);
    (0x1.6e6127ff9d971p+0, 0x1.fb046a930947ap-1);
    (0x1.921fb54442d18p+0, 0x1.0000000000000p+0) ].

Definition cos_recorded : list (float * float) :=
  [ (0x1.6bd0258912f4ap-1, 0x1.8417162e27c5ap-1);
    (0x1.cc4648875abafp-1, 0x1.3eacfd47a31a7p-1);
    (0x1.3ece3ab299cb7p-1, 0x1.9fe92c9919e0ep-1);
    (0x1.b496366e29f4fp-1, 0x1.50de47a705566p-1);
    (-0x1.6e6127ff9d971p+0, 0x1.1d06c968d9e1ap-3);
    (0x1.6e6127ff9d971p+0, 0x1.1d06c968d9e1ap-3) ].

Definition pow_recorded : list (float * float * float) :=
  [ (0x1.8146866358a76p-4, 2, 0x1.21ea99d24ac41p-7);
    (0x1.33b1ca61a51d2p-1, 2, 0x1.71d3e6dfad087p-2);
    (0x1.1a09ead5fb55fp-3, 2, 0x1.36b9d9c1c830ep-6);
    (0x1.e0c859dbf64b1p-1, 2, 0x1.c377f6e2b16a8p-1);
    (0x1.d6162c6ceef3fp-4, 2, 0x1.af9ab685d3eb3p-7);
    (0x1.dcdc3ed92fd55p-1, 2, 0x1.bc21e399df4cbp-1);
    (0x1.fb046a930947ap-1, 2, 0x1.f6153f1af3dc1p-1) ].

Definition atan2_recorded : list (float * float * float) :=
  [ (0x1.b186222389eb7p-2, 0x1.cfd9fe0bb41afp-1, 0x1.bfa56b77fae2cp-2);
    (0x1.5d0f44fdadf47p-1, 0x1.769177e559782p-1, 0x1.8015345b6ce93p-1);
    (0x1.61896984c67ecp-1, 0x1.72586fa22c8fap-1, 0x1.863cbcc38b36bp-1) ].

Definition recorded : Libm := {|
  libm_sin := recorded_1 sin_recorded;
  libm_cos := recorded_1 cos_recorded;
  libm_atan2 := recorded_2 atan2_recorded;
  libm_pow := recorded_2 pow_recorded
|}.

End Binary64.

(** ** [anti_gps.py], [analyze_threat_level], in binary64 *)

Module AntiGPS64.

Import PrimFloat Binary64.

Open Scope string_scope.
Open Scope float_scope.

Set Warnings "-inexact-float".

(** The [signal_info] dictionary, its numbers binary64. *)
Module Signal.
Record t : Type := mk {
  frequency : string;
  frequency_mhz : float;
  strength : float;
  quality : float;
  timestamp : nat;
  threat_level : AntiGPS.ThreatLevel
}.
End Signal.

Definition analyze_threat_level (signals : list Signal.t) : AntiGPS.ThreatLevel :=
  match signals with
  | [] => AntiGPS.TNone
  | _ :: _ =>
      let total_strength := sum (map Signal.strength signals) in
      let avg_quality := sum (map Signal.quality signals) / len signals in
      if gt total_strength 2.0 && gt avg_quality 0.8 then AntiGPS.Critical
      else if gt total_strength 1.5 && gt avg_quality 0.7 then AntiGPS.High
      else if gt total_strength 1.0 then AntiGPS.Medium
      else AntiGPS.Low
  end.

(** *** Reference definition, from the specification's words *)

(** Σ over the samples, taken in their order, and the mean. *)
Definition total (xs : list float) : float := fold_left add xs 0.




(** *** Vocabulary of the statements *)





End AntiGPS64.

(** ** [live_locations.py], the distance travelled, in binary64 *)

Module LiveLocations64.

Import PrimFloat Binary64.

Open Scope string_scope.
Open Scope float_scope.

Set Warnings "-inexact-float".

Notation "x <- m ;; k" := (and_then m (fun x => k))
  (at level 61, m at next level, right associativity).

(** The dictionary [get_current_location] returns, its numbers binary64. *)
Record Location : Type := mkLocation {
  name : string;
  lat : float;
  lon : float;
  country : string;
  timestamp : nat;
  accuracy : float;
  speed : float;
  heading : float;
  altitude : float
}.

(** A Python number: [get_distance_traveled] starts from the integer [0]
    and adds floats to it. *)
Inductive Number : Type :=
| Int (z : Z)
| Float (x : float).

Definition to_float (n : Number) : float :=
  match n with
  | Int z => of_Z z
  | Float x => x
  end.

(** [total + distance], [distance] a float. *)
Definition plus (total : Number) (distance : float) : Number :=
  Float (to_float total + distance).

Definition no_location : Location := mkLocation "" 0 0 "" 0 0 0 0 0.

Section WithLibm.

Context {libm : Libm}.

Definition calculate_distance (lat1 lon1 lat2 lon2 : float) : Completion float :=
  let R := 6371 in
  let lat1 := radians lat1 in
  let lon1 := radians lon1 in
  let lat2 := radians lat2 in
  let lon2 := radians lon2 in
  let dlat := lat2 - lat1 in
  let dlon := lon2 - lon1 in
  sin_dlat <- sin (dlat / 2) ;;
  sin_dlat_2 <- square sin_dlat ;;
  cos_lat1 <- cos lat1 ;;
  cos_lat2 <- cos lat2 ;;
  sin_dlon <- sin (dlon / 2) ;;
  sin_dlon_2 <- square sin_dlon ;;
  let a := sin_dlat_2 + cos_lat1 * cos_lat2 * sin_dlon_2 in
  sqrt_a <- sqrt a ;;
  sqrt_1_a <- sqrt (1 - a) ;;
  angle <- atan2 sqrt_a sqrt_1_a ;;
  let c := 2 * angle in
  let distance := R * c in
  Returned distance.

(** The body of the loop of [get_distance_traveled] at index [i]; once an
    exception is in flight nothing more is computed. *)
Definition add_leg (h : list Location) (total_distance : Completion Number) (i : nat)
  : Completion Number :=
  total_distance <- total_distance ;;
  let prev := nth (i - 1) h no_location in
  let curr := nth i h no_location in
  distance <- calculate_distance (lat prev) (lon prev) (lat curr) (lon curr) ;;
  Returned (plus total_distance distance).

(** [range(1, len(h))] is [seq 1 (len(h) - 1)]. *)
Definition get_distance_traveled (location_history : list Location)
  : Completion Number :=
  let h := location_history in
  if (List.length h <? 2)%nat then Returned (Int 0)
  else fold_left (add_leg h) (seq 1 (List.length h - 1)) (Returned (Int 0)).

(** *** Reference definitions, from the specification's words *)

(** The haversine formula on a sphere of radius 6371 km, evaluated in
    binary64: [a] from the two latitudes and the two differences, then
    the angle [2 atan2(sqrt a, sqrt (1 - a))]. *)
Definition haversine_a (phi1 lambda1 phi2 lambda2 : float) : Completion float :=
  h_phi <- (s <- sin ((phi2 - phi1) / 2) ;; square s) ;;
  c1 <- cos phi1 ;;
  c2 <- cos phi2 ;;
  h_lambda <- (s <- sin ((lambda2 - lambda1) / 2) ;; square s) ;;
  Returned (h_phi + c1 * c2 * h_lambda).

Definition haversine_km (p q : Location) : Completion float :=
  a <- haversine_a (radians (lat p)) (radians (lon p))
                   (radians (lat q)) (radians (lon q)) ;;
  y <- sqrt a ;;
  x <- sqrt (1 - a) ;;
  angle <- atan2 y x ;;
  Returned (6371 * (2 * angle)).

(** The consecutive pairs of a history, in chronological order. *)
Fixpoint legs (h : list Location) : list (Location * Location) :=
  match h with
  | p :: ((q :: _) as rest) => (p, q) :: legs rest
  | _ => []
  end.

(** The distances of the legs added to [total], in order. *)
Fixpoint sum_legs (total : Number) (ls : list (Location * Location))
  : Completion Number :=
  match ls with
  | [] => Returned total
  | (p, q) :: rest => d <- haversine_km p q ;; sum_legs (plus total d) rest
  end.

Definition total_distance (h : list Location) : Completion Number :=
  match h with
  | [] | [_] => Returned (Int 0)
  | _ :: _ :: _ => sum_legs (Int 0) (legs h)
  end.

End WithLibm.

(** *** Vocabulary of the statements *)

Definition at_coordinates (name : string) (lat lon : float) : Location :=
  mkLocation name lat lon "" 0 0 0 0 0.

(** Four of the tracker's sample locations. *)
Definition new_york : Location := at_coordinates "New York" 40.7128 (-74.0060).

Definition london : Location := at_coordinates "London" 51.5074 (-0.1278).

Definition tokyo : Location := at_coordinates "Tokyo" 35.6762 139.6503.

Definition paris : Location := at_coordinates "Paris" 48.8566 2.3522.



(** The last sample of a history. *)
Definition newest (h : list Location) : Location := last h no_location.

End LiveLocations64.

(** * Properties *)

(** ** The classifier, in exact arithmetic *)

Section Classifier.

Import AntiGPS.
Open Scope Q_scope.










End Classifier.

(** ** The history buffer *)

Section HistoryBuffer.

Import LiveLocations.

Lemma slice_from_last (A : Type) (n : nat) (xs : list A) :
  (0 < n)%nat -> slice_from (- Z.of_nat n) xs = skipn (List.length xs - n) xs.
Proof.
  intros Hn. unfold slice_from.
  destruct (Z.ltb_spec (- Z.of_nat n) 0) as [_|H]; [|lia].
  f_equal. lia.
Qed.

Lemma lastn_app_lastn (A : Type) (n : nat) (xs ys : list A) :
  lastn n (lastn n xs ++ ys) = lastn n (xs ++ ys).
Proof.
  unfold lastn.
  destruct (Nat.le_gt_cases (List.length xs) n) as [Hle|Hgt].
  - replace (List.length xs - n)%nat with 0%nat by lia. reflexivity.
  - rewrite !length_app, length_skipn.
    replace (List.length xs - (List.length xs - n) + List.length ys - n)%nat
      with (List.length ys) by lia.
    replace (List.length xs + List.length ys - n)%nat
      with (List.length ys + (List.length xs - n))%nat by lia.
    rewrite <- skipn_skipn. f_equal.
    rewrite skipn_app.
    replace (List.length xs - n - List.length xs)%nat with 0%nat by lia.
    reflexivity.
Qed.

Lemma lastn_length (A : Type) (n : nat) (xs : list A) :
  (List.length (lastn n xs) <= n)%nat.
Proof. unfold lastn. rewrite length_skipn. lia. Qed.

Lemma tracking_iteration_history (location : Location) (e : option string) (w : World) :
  location_history (tracker (tracking_iteration location e w))
  = lastn 100 (location_history (tracker w) ++ [location]).
Proof.
  unfold tracking_iteration, lastn.
  set (h := (location_history (tracker w) ++ [location])%list).
  assert (E : (if (100 <? List.length h)%nat then slice_from (-100) h else h)
              = skipn (List.length h - 100) h).
  { destruct (Nat.ltb_spec 100 (List.length h)) as [H|H].
    - apply (slice_from_last _ 100 h). lia.
    - replace (List.length h - 100)%nat with 0%nat by lia. reflexivity. }
  destruct e; simpl; exact E.
Qed.

Lemma tracking_loop_history (draws : list (Location * option string)) (w : World) :
  (List.length (location_history (tracker w)) <= 100)%nat ->
  location_history (tracker (tracking_loop draws w))
  = lastn 100 (location_history (tracker w) ++ map fst draws).
Proof.
  revert w; induction draws as [|[location e] r IH]; intros w Hw.
  - simpl. rewrite app_nil_r. unfold lastn.
    replace (List.length (location_history (tracker w)) - 100)%nat with 0%nat by lia.
    reflexivity.
  - unfold tracking_loop in *. cbn [fold_left fst snd map].
    rewrite IH.
    + rewrite tracking_iteration_history, lastn_app_lastn, <- app_assoc.
      reflexivity.
    + rewrite tracking_iteration_history. apply lastn_length.
Qed.

(** C2.  From a new tracker, whatever locations the loop appends and
    however many, the history holds at most 100 samples; and after 150
    appends it is exactly the last 100 of them, in the order they were
    appended. *)
Theorem location_history_bounded_fifo :
  forall draws : list (Location * option string),
    let w := tracking_loop draws (mkWorld init [] []) in
    (List.length (location_history (tracker w)) <= 100)%nat
    /\ (List.length draws = 150%nat ->
        location_history (tracker w) = skipn 50 (map fst draws)).
Proof.
  intros draws w. subst w.
  rewrite tracking_loop_history by (simpl; lia).
  split.
  - apply lastn_length.
  - intros H150. unfold lastn. simpl location_history.
    rewrite app_nil_l, length_map, H150. reflexivity.
Qed.

(** C2, at a concrete input: 150 samples numbered by their timestamps, the
    write of every third log line failing. *)
Lemma location_history_bounded_fifo_witness :
  let draws :=
    map (fun i => (mkLocation "Paris" 48.8566 2.3522 "France" i 5 0 0 0,
                   if (i mod 3 =? 0)%nat then Some "disk full"%string else None))
        (seq 0 150) in
  location_history (tracker (tracking_loop draws (mkWorld init [] [])))
  = skipn 50 (map fst draws).
Proof.
  intros draws.
  apply (proj2 (location_history_bounded_fifo draws)).
  reflexivity.
Defined.

End HistoryBuffer.

(** ** The distance travelled, over real numbers *)

Section Distance.

Import LiveLocations.
Open Scope R_scope.







End Distance.

(** ** Effects of the methods on the object *)

Section Effects.

Import AntiGPS.
Open Scope Q_scope.

Lemma bind_run {A B : Type} (m : M A) (k : A -> M B) (w : World) :
  bind m k w = k (fst (m w)) (snd (m w)).
Proof. unfold bind. destruct (m w); reflexivity. Qed.

Section Respects.

Variable R : AntiGPSSystem -> AntiGPSSystem -> Prop.
Hypothesis R_refl : forall s, R s s.
Hypothesis R_trans : forall a b c, R a b -> R b c -> R a c.

Lemma respects_ret {A : Type} (a : A) : respects R (ret a).
Proof. intros w. apply R_refl. Qed.

Lemma respects_bind {A B : Type} (m : M A) (k : A -> M B) :
  respects R m -> (forall a, respects R (k a)) -> respects R (bind m k).
Proof.
  intros Hm Hk w. rewrite bind_run.
  eapply R_trans; [apply Hm | apply Hk].
Qed.

Lemma respects_print (line : string) : respects R (print line).
Proof. intros w. apply R_refl. Qed.

Lemma respects_random : respects R random.
Proof. intros w. apply R_refl. Qed.

Lemma respects_now : respects R now.
Proof. intros w. apply R_refl. Qed.

Lemma respects_get_sys : respects R get_sys.
Proof. intros w. apply R_refl. Qed.

Lemma respects_append_log (e : LogEntry.t) : respects R (append_log e).
Proof.
  intros w. unfold append_log. destruct (writable w (clock w)); apply R_refl.
Qed.

Lemma respects_with_sys (f : AntiGPSSystem -> AntiGPSSystem) :
  (forall s, R s (f s)) -> respects R (with_sys f).
Proof. intros Hf w. apply Hf. Qed.

Lemma respects_uniform (a b : Q) : respects R (uniform a b).
Proof.
  apply respects_bind; [apply respects_random | intros; apply respects_ret].
Qed.

Lemma respects_choice {A : Type} (xs : list A) (d : A) : respects R (choice xs d).
Proof.
  apply respects_bind; [apply respects_random | intros; apply respects_ret].
Qed.

Lemma respects_for_each {A S : Type} (xs : list A) (body : S -> A -> M S) :
  (forall acc x, respects R (body acc x)) ->
  forall acc, respects R (for_each xs body acc).
Proof.
  intros Hb. induction xs as [|x r IH]; intros acc; cbn [for_each].
  - apply respects_ret.
  - apply respects_bind; [apply Hb | exact IH].
Qed.

Lemma respects_choices_joined (population : list string) (k : nat) :
  respects R (choices_joined population k).
Proof.
  induction k as [|k IH]; cbn [choices_joined].
  - apply respects_ret.
  - apply respects_bind; [apply respects_choice | intros c].
    apply respects_bind; [exact IH | intros; apply respects_ret].
Qed.

End Respects.

Ltac respects_step :=
  lazymatch goal with
  | |- respects _ (ret _) => apply respects_ret
  | |- respects _ (print _) => apply respects_print
  | |- respects _ random => apply respects_random
  | |- respects _ now => apply respects_now
  | |- respects _ get_sys => apply respects_get_sys
  | |- respects _ (append_log _) => apply respects_append_log
  | |- respects _ (uniform _ _) => apply respects_uniform
  | |- respects _ (choice _ _) => apply respects_choice
  | |- respects _ (choices_joined _ _) => apply respects_choices_joined
  | |- respects _ (with_sys _) => apply respects_with_sys; solve [auto]
  | |- respects _ (bind _ _) => apply respects_bind; [ | | intros ]
  | |- respects _ (match ?x with _ => _ end) => destruct x
  | |- forall _, _ => assumption
  end.

Ltac respects_auto := repeat respects_step.

(** A relation on object states that every attribute write of the class
    respects is respected by every method. *)
Section Methods.

Variable R : AntiGPSSystem -> AntiGPSSystem -> Prop.
Hypothesis R_refl : forall s, R s s.
Hypothesis R_trans : forall a b c, R a b -> R b c -> R a c.
Hypothesis R_extend : forall xs s, R s (extend_gps_signals_detected xs s).
Hypothesis R_jamming : forall b s, R s (set_jamming_active b s).
Hypothesis R_active : forall b s, R s (set_is_active b s).
Hypothesis R_level : forall l s, R s (set_protection_level_field l s).
Hypothesis R_mode : forall m s, R s (set_detection_mode_field m s).

Lemma respects_scan_band (acc : list Signal.t) (band : string * Q) :
  respects R (scan_band acc band).
Proof. destruct band as [freq_name freq]. unfold scan_band. respects_auto. Qed.

Lemma respects_detect : respects R detect_gps_signals.
Proof.
  unfold detect_gps_signals. respects_auto.
  apply respects_for_each; [assumption | assumption | apply respects_scan_band].
Qed.

Lemma respects_location_spoofing : respects R location_spoofing.
Proof. unfold location_spoofing. respects_auto. Qed.

Lemma respects_jam_signal (acc : list Jamming.t) (signal : Signal.t) :
  respects R (jam_signal acc signal).
Proof. unfold jam_signal. respects_auto. Qed.

Lemma respects_signal_jamming (signals : list Signal.t) :
  respects R (signal_jamming signals).
Proof.
  unfold signal_jamming. destruct signals as [|x r]; respects_auto.
  apply respects_for_each; [assumption | assumption | apply respects_jam_signal].
Qed.

Lemma respects_frequency_hopping : respects R frequency_hopping.
Proof. unfold frequency_hopping. respects_auto. Qed.

Lemma respects_encrypt : respects R encrypt_location_data.
Proof. unfold encrypt_location_data. respects_auto. Qed.

Ltac respects_method :=
  lazymatch goal with
  | |- respects _ detect_gps_signals => apply respects_detect
  | |- respects _ location_spoofing => apply respects_location_spoofing
  | |- respects _ (signal_jamming _) => apply respects_signal_jamming
  | |- respects _ frequency_hopping => apply respects_frequency_hopping
  | |- respects _ encrypt_location_data => apply respects_encrypt
  | |- _ => respects_step
  end.

Lemma respects_apply_protection (signals : list Signal.t) :
  respects R (apply_protection signals).
Proof. unfold apply_protection. repeat respects_method. Qed.

Lemma respects_apply_basic_protection (signals : list Signal.t) :
  respects R (apply_basic_protection signals).
Proof. unfold apply_basic_protection. repeat respects_method. Qed.

Lemma respects_log_activity (signals : list Signal.t) :
  respects R (log_activity signals).
Proof. unfold log_activity. respects_auto. Qed.

Lemma respects_monitoring_iteration : respects R monitoring_iteration.
Proof.
  unfold monitoring_iteration.
  apply respects_bind; [assumption | apply respects_detect | intros signals].
  apply respects_bind; [assumption | | intros _; apply respects_log_activity].
  destruct signals as [|x r]; [apply respects_ret; assumption|].
  apply respects_bind; [assumption | apply respects_print; assumption | intros _].
  destruct (analyze_threat_level (x :: r)).
  - apply respects_ret; assumption.
  - apply respects_ret; assumption.
  - apply respects_bind;
      [assumption | apply respects_apply_basic_protection
       | intros; apply respects_ret; assumption].
  - apply respects_bind;
      [assumption | apply respects_apply_protection
       | intros; apply respects_ret; assumption].
  - apply respects_bind;
      [assumption | apply respects_apply_protection
       | intros; apply respects_ret; assumption].
Qed.

Lemma respects_monitoring_loop (fuel : nat) : respects R (monitoring_loop fuel).
Proof.
  induction fuel as [|k IH]; cbn [monitoring_loop].
  - apply respects_ret; assumption.
  - apply respects_bind; [assumption | apply respects_get_sys; assumption | intros s'].
    destruct (is_active s').
    + apply respects_bind;
        [assumption | apply respects_monitoring_iteration | intros [_|exc]].
      * exact IH.
      * apply respects_ret; assumption.
    + apply respects_ret; assumption.
Qed.

Lemma respects_continuous_monitoring (fuel : nat) :
  respects R (continuous_monitoring fuel).
Proof.
  unfold continuous_monitoring.
  apply respects_bind; [assumption | apply respects_print; assumption | intros _].
  apply respects_bind; [assumption | | intros _; apply respects_monitoring_loop].
  apply respects_with_sys. auto.
Qed.

Lemma respects_set_protection_level (level : string) :
  respects R (set_protection_level level).
Proof.
  unfold set_protection_level.
  destruct (existsb (String.eqb level) (map fst protection_methods)); respects_auto.
Qed.

Lemma respects_set_detection_mode (mode : string) :
  respects R (set_detection_mode mode).
Proof.
  unfold set_detection_mode. cbv zeta.
  destruct (existsb (String.eqb mode) _); respects_auto.
Qed.

Lemma respects_get_status : respects R get_status.
Proof. unfold get_status. respects_auto. Qed.

Lemma respects_stop_monitoring : respects R stop_monitoring.
Proof. unfold stop_monitoring. respects_auto. Qed.

Lemma respects_op (op : Op) (w : World) : R (sys w) (sys (run_op op w)).
Proof.
  destruct op; cbn [run_op].
  - apply respects_detect.
  - apply respects_location_spoofing.
  - apply respects_signal_jamming.
  - apply respects_frequency_hopping.
  - apply respects_encrypt.
  - apply respects_continuous_monitoring.
  - apply respects_apply_protection.
  - apply respects_apply_basic_protection.
  - apply respects_log_activity.
  - apply respects_set_protection_level.
  - apply respects_set_detection_mode.
  - apply respects_get_status.
  - apply respects_stop_monitoring.
Qed.

Lemma respects_ops (ops : list Op) (w : World) : R (sys w) (sys (run_ops ops w)).
Proof.
  revert w; induction ops as [|op r IH]; intros w; cbn [run_ops fold_left].
  - apply R_refl.
  - eapply R_trans; [apply (respects_op op) | apply IH].
Qed.

End Methods.

(** *** The sampler *)

Lemma scan_band_spec (acc : list Signal.t) (freq_name : string) (freq : Q) (w : World) :
  let st := uniform_value 0.1 1.0 (rng w (rng_pos w)) in
  let q := uniform_value 0.5 0.95 (rng w (S (rng_pos w))) in
  let r := scan_band acc (freq_name, freq) w in
  fst r = (if Py.gt st 0.3
           then acc ++ [Signal.mk freq_name freq st q (clock w)
                                  (if Py.gt st 0.7 then High else Medium)]
           else acc)%list
  /\ rng (snd r) = rng w
  /\ rng_pos (snd r) = S (S (rng_pos w))
  /\ sys (snd r) = sys w.
Proof.
  cbv zeta. unfold scan_band, uniform. rewrite !bind_run.
  cbn [random ret fst snd rng rng_pos clock sys].
  destruct (Py.gt (uniform_value 0.1 1.0 (rng w (rng_pos w))) 0.3).
  - rewrite !bind_run. cbn. auto.
  - cbn. auto.
Qed.

Lemma for_each_scan_band_spec (bands : list (string * Q)) (acc : list Signal.t)
      (w : World) :
  let r := for_each bands scan_band acc w in
  map signal_draw (fst r)
  = (map signal_draw acc
       ++ filter (fun d => Py.gt (drawn_strength d) 0.3)
                 (band_draws_from bands (rng w) (rng_pos w)))%list
  /\ rng (snd r) = rng w
  /\ sys (snd r) = sys w.
Proof.
  revert acc w; induction bands as [|[freq_name freq] rest IH]; intros acc w.
  - cbn. rewrite app_nil_r. auto.
  - cbv zeta. cbn [for_each]. rewrite bind_run.
    destruct (scan_band_spec acc freq_name freq w) as (Hf & Hr & Hp & Hs).
    destruct (IH (fst (scan_band acc (freq_name, freq) w))
                 (snd (scan_band acc (freq_name, freq) w))) as (IH1 & IH2 & IH3).
    rewrite IH1, IH2, IH3, Hf, Hr, Hp, Hs.
    repeat split.
    cbn [band_draws_from filter drawn_strength fst snd].
    destruct (Py.gt (uniform_value 0.1 1.0 (rng w (rng_pos w))) 0.3).
    + rewrite map_app, <- app_assoc. reflexivity.
    + reflexivity.
Qed.

Lemma detect_gps_signals_run (w : World) :
  let r := for_each gps_frequencies scan_band []
                    (snd (print "🔍 Scanning for GPS signals..." w)) in
  fst (detect_gps_signals w) = fst r
  /\ sys (snd (detect_gps_signals w))
     = extend_gps_signals_detected (fst r) (sys (snd r))
  /\ rng (snd (detect_gps_signals w)) = rng (snd r).
Proof.
  cbv zeta. unfold detect_gps_signals. rewrite !bind_run.
  cbn [ret with_sys fst snd sys rng]. auto.
Qed.

Lemma detect_gps_signals_sys (w : World) :
  sys (snd (detect_gps_signals w))
  = extend_gps_signals_detected (fst (detect_gps_signals w)) (sys w).
Proof.
  destruct (detect_gps_signals_run w) as (Hf & Hs & _).
  rewrite Hs, Hf.
  destruct (for_each_scan_band_spec gps_frequencies []
              (snd (print "🔍 Scanning for GPS signals..." w))) as (_ & _ & H).
  rewrite H. reflexivity.
Qed.

Lemma detect_gps_signals_draws (w : World) :
  map signal_draw (fst (detect_gps_signals w))
  = filter (fun d => Py.gt (drawn_strength d) 0.3) (band_draws w).
Proof.
  destruct (detect_gps_signals_run w) as (Hf & _ & _). rewrite Hf.
  destruct (for_each_scan_band_spec gps_frequencies []
              (snd (print "🔍 Scanning for GPS signals..." w))) as (H & _ & _).
  rewrite H. reflexivity.
Qed.

Lemma detect_gps_signals_rng (w : World) :
  rng (snd (detect_gps_signals w)) = rng w.
Proof.
  destruct (detect_gps_signals_run w) as (_ & _ & Hr). rewrite Hr.
  destruct (for_each_scan_band_spec gps_frequencies []
              (snd (print "🔍 Scanning for GPS signals..." w))) as (_ & H & _).
  rewrite H. reflexivity.
Qed.

(** C6, as the code has it.  [detect_gps_signals] returns its list of
    detected signals and appends that list to [gps_signals_detected];
    every other attribute of the object is left as it was. *)
Theorem detect_gps_signals_appends_to_detected :
  forall w : World,
    let signals := fst (detect_gps_signals w) in
    let s' := sys (snd (detect_gps_signals w)) in
    gps_signals_detected s' = (gps_signals_detected (sys w) ++ signals)%list
    /\ is_active s' = is_active (sys w)
    /\ detection_mode s' = detection_mode (sys w)
    /\ protection_level s' = protection_level (sys w)
    /\ jamming_active s' = jamming_active (sys w).
Proof.
  intros w. cbv zeta. rewrite detect_gps_signals_sys. cbn. auto.
Qed.

(** C6, as stated, fails: with every draw one half, a scan of a new
    system changes [gps_signals_detected]. *)
Lemma detect_gps_signals_changes_the_object :
  sys (snd (detect_gps_signals (fresh half))) <> sys (fresh half).
Proof.
  rewrite detect_gps_signals_sys. intros H.
  apply (f_equal (fun s => List.length (gps_signals_detected s))) in H.
  vm_compute in H. discriminate.
Qed.

(** *** The cumulative list of detected signals *)

Lemma extends_refl {A : Type} (xs : list A) : extends xs xs.
Proof. exists []. now rewrite app_nil_r. Qed.

Lemma extends_trans {A : Type} (xs ys zs : list A) :
  extends xs ys -> extends ys zs -> extends xs zs.
Proof.
  intros [a Ha] [b Hb]. exists (a ++ b)%list. subst. now rewrite app_assoc.
Qed.

Lemma run_ops_grows (ops : list Op) (w : World) :
  grows (sys w) (sys (run_ops ops w)).
Proof.
  apply respects_ops; unfold grows; intros; cbn;
    try apply extends_refl; try (eapply extends_trans; eassumption).
  eexists; reflexivity.
Qed.

Lemma detect_with_half (w : World) :
  rng w = half -> List.length (fst (detect_gps_signals w)) = 3%nat.
Proof.
  intros H.
  rewrite <- (length_map signal_draw), detect_gps_signals_draws.
  unfold band_draws. rewrite H. reflexivity.
Qed.

Lemma repeated_scans_with_half (k : nat) (w : World) :
  rng w = half ->
  List.length (gps_signals_detected (sys (run_ops (repeat OpDetect k) w)))
  = (List.length (gps_signals_detected (sys w)) + 3 * k)%nat.
Proof.
  revert w; induction k as [|k IH]; intros w H.
  - cbn. lia.
  - cbn [repeat run_ops fold_left run_op].
    change (fold_left (fun w' op => run_op op w') (repeat OpDetect k)
                      (snd (detect_gps_signals w)))
      with (run_ops (repeat OpDetect k) (snd (detect_gps_signals w))).
    rewrite IH by (rewrite detect_gps_signals_rng; exact H).
    rewrite detect_gps_signals_sys. cbn [extend_gps_signals_detected gps_signals_detected].
    rewrite length_app, (detect_with_half w H). lia.
Qed.

(** C10.  [gps_signals_detected] is cumulative and append-only: each scan
    appends every signal it drew whose strength exceeds 0.3, in band
    order; no sequence of method calls drops or reorders what the list
    held; its length has no bound (with every draw one half, [k] scans of
    a new system leave [3 * k] entries); and the [threat_level] of
    [get_status] is [analyze_threat_level] of that whole list. *)
Theorem gps_signals_detected_cumulative :
  (forall w : World,
      gps_signals_detected (sys (snd (detect_gps_signals w)))
      = (gps_signals_detected (sys w) ++ fst (detect_gps_signals w))%list
      /\ map signal_draw (fst (detect_gps_signals w))
         = filter (fun d => Py.gt (drawn_strength d) 0.3) (band_draws w))
  /\ (forall (ops : list Op) (w : World),
         extends (gps_signals_detected (sys w))
                 (gps_signals_detected (sys (run_ops ops w))))
  /\ (forall k : nat,
         List.length
           (gps_signals_detected (sys (run_ops (repeat OpDetect k) (fresh half))))
         = (3 * k)%nat)
  /\ (forall w : World,
         Status.threat_level (fst (get_status w))
         = analyze_threat_level (gps_signals_detected (sys w))
         /\ Status.signals_detected (fst (get_status w))
            = List.length (gps_signals_detected (sys w))).
Proof.
  split; [|split; [|split]].
  - intros w. split.
    + rewrite detect_gps_signals_sys. reflexivity.
    + apply detect_gps_signals_draws.
  - intros ops w. apply run_ops_grows.
  - intros k. rewrite repeated_scans_with_half by reflexivity. reflexivity.
  - intros w. split; reflexivity.
Qed.

(** *** The jammer *)

Lemma jam_signal_spec (acc : list Jamming.t) (signal : Signal.t) (w : World) :
  let power := uniform_value 0.6 0.95 (rng w (rng_pos w)) in
  fst (jam_signal acc signal w)
  = (acc ++ [Jamming.mk (Signal.frequency signal) power (Py.gt power 0.7)
                        (clock w)])%list.
Proof.
  cbv zeta. unfold jam_signal, uniform. rewrite !bind_run. reflexivity.
Qed.

Lemma for_each_jam_signal_spec (signals : list Signal.t) (acc : list Jamming.t)
      (w : World) :
  exists new : list Jamming.t,
    fst (for_each signals jam_signal acc w) = (acc ++ new)%list /\ jams signals new.
Proof.
  revert acc w; induction signals as [|x r IH]; intros acc w.
  - exists []. cbn. rewrite app_nil_r. repeat split. constructor.
  - cbn [for_each]. rewrite bind_run, jam_signal_spec.
    destruct (IH (acc ++ [Jamming.mk (Signal.frequency x)
                            (uniform_value 0.6 0.95 (rng w (rng_pos w)))
                            (Py.gt (uniform_value 0.6 0.95 (rng w (rng_pos w))) 0.7)
                            (clock w)])%list
                 (snd (jam_signal acc x w))) as (new & Hn & Hl & Hf & Hs).
    eexists (_ :: new). rewrite Hn, <- app_assoc. split; [reflexivity|].
    repeat split; cbn; [now rewrite Hl | now rewrite Hf |].
    constructor; [reflexivity | exact Hs].
Qed.

(** C7, as the code has it.  [signal_jamming] always returns: on the empty
    list the value [False], the world untouched; on a non-empty list a
    list with one jamming record for each signal, in order, each a success
    exactly when its power exceeds 0.7, and [jamming_active] set to whether
    any succeeded. *)
Theorem signal_jamming_returns :
  forall (signals : list Signal.t) (w : World),
    (signals = [] -> signal_jamming signals w = (JamFalse, w))
    /\ (signals <> [] ->
        exists results : list Jamming.t,
          fst (signal_jamming signals w) = JamList results
          /\ jams signals results
          /\ jamming_active (sys (snd (signal_jamming signals w)))
             = existsb Jamming.success results).
Proof.
  intros signals w. split.
  - intros ->. reflexivity.
  - intros Hne. destruct signals as [|x r]; [congruence|].
    unfold signal_jamming. rewrite !bind_run.
    destruct (for_each_jam_signal_spec (x :: r) []
                (snd (print "📡 Activating signal jamming..." w)))
      as (results & Hr & Hj).
    exists results. cbn [ret fst snd with_sys sys set_jamming_active jamming_active].
    rewrite Hr. auto.
Qed.

(** C7, as stated, fails: on the empty list the result is [False], not a
    list of records. *)
Lemma signal_jamming_empty_is_not_a_list :
  ~ exists results : list Jamming.t,
      fst (signal_jamming [] (fresh half)) = JamList results.
Proof. intros [results H]. discriminate H. Qed.

(** C7, at concrete inputs: no signal, and two signals. *)
Lemma signal_jamming_returns_witness :
  let signals :=
    [Signal.mk "L1" 1575.42 0.6 0.9 0 Medium; Signal.mk "L2" 1227.60 0.8 0.9 1 High] in
  signal_jamming [] (fresh half) = (JamFalse, fresh half)
  /\ exists results : list Jamming.t,
      fst (signal_jamming signals (fresh half)) = JamList results
      /\ jams signals results
      /\ jamming_active (sys (snd (signal_jamming signals (fresh half))))
         = existsb Jamming.success results.
Proof.
  intros signals. split.
  - apply (proj1 (signal_jamming_returns [] (fresh half))). reflexivity.
  - apply (proj2 (signal_jamming_returns signals (fresh half))). discriminate.
Defined.

(** *** Configuration *)

Lemma existsb_eqb_In (x : string) (xs : list string) :
  existsb (String.eqb x) xs = true <-> In x xs.
Proof.
  rewrite existsb_exists. split.
  - intros (y & Hy & E). apply String.eqb_eq in E. now subst.
  - intros H. exists x. split; [exact H | apply String.eqb_refl].
Qed.

(** C8.  [set_protection_level] with one of low, medium, high, maximum
    sets [protection_level] to it, and [set_detection_mode] with one of
    passive, active, aggressive sets [detection_mode] to it; with any other
    string each prints its message and leaves the object as it was. *)
Theorem configuration_setters :
  forall (w : World) (v : string),
    (In v tiers ->
     sys (snd (set_protection_level v w)) = set_protection_level_field v (sys w))
    /\ (~ In v tiers ->
        sys (snd (set_protection_level v w)) = sys w
        /\ stdout (snd (set_protection_level v w))
           = (stdout w
                ++ ["❌ Invalid protection level. Use: low, medium, high, maximum"%string])%list)
    /\ (In v modes ->
        sys (snd (set_detection_mode v w)) = set_detection_mode_field v (sys w))
    /\ (~ In v modes ->
        sys (snd (set_detection_mode v w)) = sys w
        /\ stdout (snd (set_detection_mode v w))
           = (stdout w
                ++ ["❌ Invalid detection mode. Use: passive, active, aggressive"%string])%list).
Proof.
  intros w v.
  unfold set_protection_level, set_detection_mode.
  change (map fst protection_methods) with tiers.
  change ["passive"%string; "active"%string; "aggressive"%string] with modes.
  cbv zeta.
  pose proof (existsb_eqb_In v tiers) as Ht.
  pose proof (existsb_eqb_In v modes) as Hm.
  split; [|split; [|split]].
  - intros Hin. apply Ht in Hin. rewrite Hin. reflexivity.
  - intros Hout.
    destruct (existsb (String.eqb v) tiers);
      [exfalso; apply Hout, Ht; reflexivity | split; reflexivity].
  - intros Hin. apply Hm in Hin. rewrite Hin. reflexivity.
  - intros Hout.
    destruct (existsb (String.eqb v) modes);
      [exfalso; apply Hout, Hm; reflexivity | split; reflexivity].
Qed.

(** C8, at concrete inputs: a tier and a word that is no tier, a mode and a
    word that is no mode. *)
Lemma configuration_setters_witness :
  protection_level (sys (snd (set_protection_level "high" (fresh half)))) = "high"%string
  /\ sys (snd (set_protection_level "extreme" (fresh half))) = sys (fresh half)
  /\ detection_mode (sys (snd (set_detection_mode "active" (fresh half)))) = "active"%string
  /\ sys (snd (set_detection_mode "HIGH" (fresh half))) = sys (fresh half).
Proof.
  pose proof (configuration_setters (fresh half) "high") as (H1 & _).
  pose proof (configuration_setters (fresh half) "extreme") as (_ & H2 & _).
  pose proof (configuration_setters (fresh half) "active") as (_ & _ & H3 & _).
  pose proof (configuration_setters (fresh half) "HIGH") as (_ & _ & _ & H4).
  split; [|split; [|split]].
  - rewrite H1; [reflexivity | cbn; tauto].
  - apply H2. cbn. intros [H|[H|[H|[H|[]]]]]; discriminate H.
  - rewrite H3; [reflexivity | cbn; tauto].
  - apply H4. cbn. intros [H|[H|[H|[]]]]; discriminate H.
Defined.

(** *** The responder and the protection tier *)

(** C5, evaluated on the code.  With the protection tier set to low, whose
    entry in [protection_methods] lists neither jamming nor encryption,
    one pass of the monitoring loop at threat level high runs the jammer
    and the encryption, and one at threat level medium runs the jammer:
    the tier is not consulted. *)
Theorem low_tier_still_jams_and_encrypts :
  let w := snd (set_protection_level "low" (fresh half)) in
  let w' := snd (monitoring_iteration w) in
  let v := snd (set_protection_level "low" (fresh three_tenths)) in
  let v' := snd (monitoring_iteration v) in
  protection_level (sys w) = "low"%string
  /\ In ("low"%string, ["signal_detection"%string; "location_spoofing"%string])
        protection_methods
  /\ analyze_threat_level (fst (detect_gps_signals w)) = High
  /\ In "📡 Activating signal jamming..."%string (stdout w')
  /\ In "🔐 Encrypting location data..."%string (stdout w')
  /\ jamming_active (sys w') = true
  /\ protection_level (sys v) = "low"%string
  /\ analyze_threat_level (fst (detect_gps_signals v)) = Medium
  /\ In "📡 Activating signal jamming..."%string (stdout v')
  /\ jamming_active (sys v') = true.
Proof.
  vm_compute. intuition congruence.
Qed.

End Effects.

(** ** Shareable links *)

Section Links.

Import ShareableLinks.
Import FloatAxioms SpecFloat FloatOps.
Open Scope string_scope.










End Links.

(** ** More on the classifier *)

Section ClassifierFacts.

Import AntiGPS.
Open Scope Q_scope.









End ClassifierFacts.

(** ** The monitoring loop *)

Section Monitoring.

Import AntiGPS.
Open Scope Q_scope.

Section WorldRespects.

Variable W : World -> World -> Prop.
Hypothesis W_refl : forall w, W w w.
Hypothesis W_trans : forall a b c, W a b -> W b c -> W a c.
Hypothesis W_print : forall line w, W w (snd (print line w)).
Hypothesis W_random : forall w, W w (snd (random w)).
Hypothesis W_now : forall w, W w (snd (now w)).
Hypothesis W_sys : forall f w, W w (snd (with_sys f w)).

Lemma wrespects_ret {A : Type} (a : A) : wrespects W (ret a).
Proof. intros w. apply W_refl. Qed.

Lemma wrespects_bind {A B : Type} (m : M A) (k : A -> M B) :
  wrespects W m -> (forall a, wrespects W (k a)) -> wrespects W (bind m k).
Proof.
  intros Hm Hk w. rewrite bind_run.
  eapply W_trans; [apply Hm | apply Hk].
Qed.

Lemma wrespects_get_sys : wrespects W get_sys.
Proof. intros w. apply W_refl. Qed.

Lemma wrespects_uniform (a b : Q) : wrespects W (uniform a b).
Proof.
  apply wrespects_bind; [exact W_random | intros; apply wrespects_ret].
Qed.

Lemma wrespects_choice {A : Type} (xs : list A) (d : A) : wrespects W (choice xs d).
Proof.
  apply wrespects_bind; [exact W_random | intros; apply wrespects_ret].
Qed.

Lemma wrespects_for_each {A S : Type} (xs : list A) (body : S -> A -> M S) :
  (forall acc x, wrespects W (body acc x)) ->
  forall acc, wrespects W (for_each xs body acc).
Proof.
  intros Hb. induction xs as [|x r IH]; intros acc; cbn [for_each].
  - apply wrespects_ret.
  - apply wrespects_bind; [apply Hb | exact IH].
Qed.

Lemma wrespects_choices_joined (population : list string) (k : nat) :
  wrespects W (choices_joined population k).
Proof.
  induction k as [|k IH]; cbn [choices_joined].
  - apply wrespects_ret.
  - apply wrespects_bind; [apply wrespects_choice | intros c].
    apply wrespects_bind; [exact IH | intros; apply wrespects_ret].
Qed.

Ltac wstep :=
  lazymatch goal with
  | |- wrespects _ (ret _) => apply wrespects_ret
  | |- wrespects _ (print _) => intros ?; apply W_print
  | |- wrespects _ random => exact W_random
  | |- wrespects _ now => exact W_now
  | |- wrespects _ get_sys => apply wrespects_get_sys
  | |- wrespects _ (with_sys _) => intros ?; apply W_sys
  | |- wrespects _ (uniform _ _) => apply wrespects_uniform
  | |- wrespects _ (choice _ _) => apply wrespects_choice
  | |- wrespects _ (choices_joined _ _) => apply wrespects_choices_joined
  | |- wrespects _ (bind _ _) => apply wrespects_bind; [ | intros ]
  | |- wrespects _ (match ?x with _ => _ end) => destruct x
  end.

Lemma wrespects_scan_band (acc : list Signal.t) (band : string * Q) :
  wrespects W (scan_band acc band).
Proof. destruct band as [freq_name freq]. unfold scan_band. repeat wstep. Qed.

Lemma wrespects_detect : wrespects W detect_gps_signals.
Proof.
  unfold detect_gps_signals. repeat wstep.
  apply wrespects_for_each, wrespects_scan_band.
Qed.

Lemma wrespects_location_spoofing : wrespects W location_spoofing.
Proof. unfold location_spoofing. repeat wstep. Qed.

Lemma wrespects_jam_signal (acc : list Jamming.t) (signal : Signal.t) :
  wrespects W (jam_signal acc signal).
Proof. unfold jam_signal. repeat wstep. Qed.

Lemma wrespects_signal_jamming (signals : list Signal.t) :
  wrespects W (signal_jamming signals).
Proof.
  unfold signal_jamming. destruct signals as [|x r]; repeat wstep.
  apply wrespects_for_each, wrespects_jam_signal.
Qed.

Lemma wrespects_frequency_hopping : wrespects W frequency_hopping.
Proof. unfold frequency_hopping. repeat wstep. Qed.

Lemma wrespects_encrypt : wrespects W encrypt_location_data.
Proof. unfold encrypt_location_data. repeat wstep. Qed.

Lemma wrespects_apply_protection (signals : list Signal.t) :
  wrespects W (apply_protection signals).
Proof.
  unfold apply_protection.
  apply wrespects_bind; [intros ?; apply W_print | intros _].
  apply wrespects_bind; [apply wrespects_location_spoofing | intros spoof].
  apply wrespects_bind; [apply wrespects_signal_jamming | intros jam].
  apply wrespects_bind; [apply wrespects_frequency_hopping | intros hop].
  apply wrespects_bind; [apply wrespects_encrypt | intros enc].
  apply wrespects_ret.
Qed.

Lemma wrespects_apply_basic_protection (signals : list Signal.t) :
  wrespects W (apply_basic_protection signals).
Proof.
  unfold apply_basic_protection.
  apply wrespects_bind; [intros ?; apply W_print | intros _].
  apply wrespects_bind; [apply wrespects_location_spoofing | intros spoof].
  apply wrespects_bind; [apply wrespects_signal_jamming | intros jam].
  apply wrespects_ret.
Qed.

Lemma wrespects_respond (signals : list Signal.t) : wrespects W (respond signals).
Proof.
  unfold respond. destruct signals as [|x r]; [apply wrespects_ret|].
  cbv zeta.
  apply wrespects_bind; [intros ?; apply W_print | intros _].
  destruct (analyze_threat_level (x :: r)).
  - apply wrespects_ret.
  - apply wrespects_ret.
  - apply wrespects_bind; [|intros; apply wrespects_ret].
    apply wrespects_apply_basic_protection.
  - apply wrespects_bind; [|intros; apply wrespects_ret].
    apply wrespects_apply_protection.
  - apply wrespects_bind; [|intros; apply wrespects_ret].
    apply wrespects_apply_protection.
Qed.

End WorldRespects.

Lemma same_log_refl (w : World) : same_log w w.
Proof. repeat split. Qed.

Lemma same_log_trans (a b c : World) : same_log a b -> same_log b c -> same_log a c.
Proof. intros (H1 & H2 & H3) (H4 & H5 & H6). unfold same_log. repeat split; congruence. Qed.

Lemma same_settings_refl (s : AntiGPSSystem) : same_settings s s.
Proof. repeat split. Qed.

Lemma same_settings_trans (a b c : AntiGPSSystem) :
  same_settings a b -> same_settings b c -> same_settings a c.
Proof. unfold same_settings. intuition congruence. Qed.

Lemma monitoring_iteration_run (w : World) :
  monitoring_iteration w
  = log_activity (fst (detect_gps_signals w))
      (snd (respond (fst (detect_gps_signals w)) (snd (detect_gps_signals w)))).
Proof. unfold monitoring_iteration. rewrite !bind_run. reflexivity. Qed.

Lemma respond_same_log (signals : list Signal.t) (w : World) :
  same_log w (snd (respond signals w)).
Proof.
  apply wrespects_respond; intros;
    first [apply same_log_refl | eapply same_log_trans; eassumption
          | repeat split].
Qed.

Lemma detect_same_log (w : World) : same_log w (snd (detect_gps_signals w)).
Proof.
  apply wrespects_detect; intros;
    first [apply same_log_refl | eapply same_log_trans; eassumption
          | repeat split].
Qed.

Lemma respond_respects (R : AntiGPSSystem -> AntiGPSSystem -> Prop)
      (signals : list Signal.t) :
  (forall s, R s s) ->
  (forall a b c, R a b -> R b c -> R a c) ->
  (forall b s, R s (set_jamming_active b s)) ->
  respects R (respond signals).
Proof.
  intros Hr Ht Hj. unfold respond. destruct signals as [|x r];
    [apply respects_ret; exact Hr|].
  cbv zeta.
  apply respects_bind; [exact Ht | apply respects_print; exact Hr | intros _].
  destruct (analyze_threat_level (x :: r)).
  - apply respects_ret; exact Hr.
  - apply respects_ret; exact Hr.
  - apply respects_bind; [exact Ht | | intros; apply respects_ret; exact Hr].
    apply respects_apply_basic_protection; assumption.
  - apply respects_bind; [exact Ht | | intros; apply respects_ret; exact Hr].
    apply respects_apply_protection; assumption.
  - apply respects_bind; [exact Ht | | intros; apply respects_ret; exact Hr].
    apply respects_apply_protection; assumption.
Qed.

Lemma same_settings_extend (xs : list Signal.t) (s : AntiGPSSystem) :
  same_settings s (extend_gps_signals_detected xs s).
Proof. repeat split. Qed.

Lemma same_settings_jamming (b : bool) (s : AntiGPSSystem) :
  same_settings s (set_jamming_active b s).
Proof. repeat split. Qed.

Lemma monitoring_iteration_same_settings (w : World) :
  same_settings (sys w) (sys (snd (monitoring_iteration w))).
Proof.
  apply respects_monitoring_iteration;
    first [apply same_settings_refl | apply same_settings_trans
          | apply same_settings_extend | apply same_settings_jamming].
Qed.

(** [log_activity], run: the clock is read, then the line is written. *)
Lemma log_activity_run (signals : list Signal.t) (w : World) :
  log_activity signals w
  = append_log (LogEntry.mk (clock w) (List.length signals)
                            (analyze_threat_level signals)
                            (jamming_active (sys w)) (detection_mode (sys w)))
               (snd (now w)).
Proof. unfold log_activity. rewrite !bind_run. reflexivity. Qed.

Lemma log_activity_sys (signals : list Signal.t) (w : World) :
  sys (snd (log_activity signals w)) = sys w.
Proof.
  rewrite log_activity_run. unfold append_log.
  destruct (writable (snd (now w)) (clock (snd (now w)))); reflexivity.
Qed.

Lemma log_activity_writable (signals : list Signal.t) (w : World) :
  writable (snd (log_activity signals w)) = writable w.
Proof.
  rewrite log_activity_run. unfold append_log.
  destruct (writable (snd (now w)) (clock (snd (now w)))); reflexivity.
Qed.

Lemma monitoring_iteration_writable (w : World) :
  writable (snd (monitoring_iteration w)) = writable w.
Proof.
  rewrite monitoring_iteration_run, log_activity_writable.
  destruct (detect_same_log w) as (_ & _ & H1).
  destruct (respond_same_log (fst (detect_gps_signals w))
                             (snd (detect_gps_signals w))) as (_ & _ & H2).
  congruence.
Qed.

Lemma monitoring_iteration_log :
  forall w : World,
    let signals := fst (detect_gps_signals w) in
    let w' := snd (monitoring_iteration w) in
    match fst (monitoring_iteration w) with
    | Returned _ =>
        writable w (write_instant w) = true
        /\ exists e : LogEntry.t,
             log w' = (log w ++ [e])%list
             /\ LogEntry.signals_detected e = List.length signals
             /\ LogEntry.threat_level e = analyze_threat_level signals
             /\ LogEntry.detection_mode e = detection_mode (sys w)
             /\ LogEntry.protection_active e = jamming_active (sys w')
    | Raised exc =>
        writable w (write_instant w) = false
        /\ exc = "OSError"%string
        /\ log w' = log w
    end.
Proof.
  intros w. cbv zeta.
  pose proof (monitoring_iteration_same_settings w) as (_ & Hmode & _).
  revert Hmode. rewrite monitoring_iteration_run. unfold write_instant.
  set (signals := fst (detect_gps_signals w)).
  set (w2 := snd (respond signals (snd (detect_gps_signals w)))).
  assert (Hlog : log w2 = log w /\ writable w2 = writable w).
  { destruct (detect_same_log w) as (H1 & _ & H1').
    destruct (respond_same_log signals (snd (detect_gps_signals w)))
      as (H2 & _ & H2').
    unfold w2. split; congruence. }
  destruct Hlog as [Hlog Hwr].
  rewrite log_activity_run. unfold append_log.
  cbn [now fst snd writable clock]. rewrite Hwr.
  destruct (writable w (S (clock w2))); cbn [fst snd log sys]; intros Hmode.
  - split; [reflexivity|]. eexists. split; [rewrite Hlog; reflexivity|].
    cbn [LogEntry.signals_detected LogEntry.threat_level
         LogEntry.detection_mode LogEntry.protection_active].
    split; [reflexivity|]. split; [reflexivity|].
    split; [symmetry; exact Hmode | reflexivity].
  - split; [reflexivity|]. split; [reflexivity | exact Hlog].
Qed.

(** One pass of the monitoring loop ends in one of two ways.  When the log
    file can be written at the instant of the write, the pass returns and
    has appended exactly one line: the number of signals of this scan,
    their threat level, the detection mode, and [jamming_active] as the
    pass leaves it.  When it cannot, [OSError] leaves the pass and the
    file is as it was. *)
Theorem monitoring_iteration_logs_one_line :
  forall w : World,
    let signals := fst (detect_gps_signals w) in
    let w' := snd (monitoring_iteration w) in
    match fst (monitoring_iteration w) with
    | Returned _ =>
        writable w (write_instant w) = true
        /\ exists e : LogEntry.t,
             log w' = (log w ++ [e])%list
             /\ LogEntry.signals_detected e = List.length signals
             /\ LogEntry.threat_level e = analyze_threat_level signals
             /\ LogEntry.detection_mode e = detection_mode (sys w)
             /\ LogEntry.protection_active e = jamming_active (sys w')
    | Raised exc =>
        writable w (write_instant w) = false
        /\ exc = "OSError"%string
        /\ log w' = log w
    end.
Proof. exact monitoring_iteration_log. Qed.

(** At concrete inputs: with every draw one half the pass writes at
    instant 10; on a file system that is full from instant 10 on it
    raises and logs nothing, on one that is full from instant 11 on it
    logs one line. *)
Lemma monitoring_iteration_logs_one_line_witness :
  let full := on_disk (full_from 10) (fresh half) in
  let free := on_disk (full_from 11) (fresh half) in
  (fst (monitoring_iteration full) = Raised "OSError"%string
   /\ log (snd (monitoring_iteration full)) = [])
  /\ (fst (monitoring_iteration free) = Returned tt
      /\ List.length (log (snd (monitoring_iteration free))) = 1%nat).
Proof.
  intros full free. split.
  - pose proof (monitoring_iteration_logs_one_line full) as H. cbv zeta in H.
    assert (E : fst (monitoring_iteration full) = Raised "OSError"%string)
      by (vm_compute; reflexivity).
    rewrite E in H. destruct H as (_ & _ & H). split; [exact E | exact H].
  - pose proof (monitoring_iteration_logs_one_line free) as H. cbv zeta in H.
    assert (E : fst (monitoring_iteration free) = Returned tt)
      by (vm_compute; reflexivity).
    rewrite E in H. destruct H as (_ & e & H & _).
    split; [exact E | rewrite H; reflexivity].
Defined.

Lemma monitoring_loop_runs (fuel : nat) (w : World) :
  is_active (sys w) = true ->
  let w' := snd (monitoring_loop fuel w) in
  same_settings (sys w) (sys w')
  /\ match fst (monitoring_loop fuel w) with
     | Returned _ => List.length (log w') = (List.length (log w) + fuel)%nat
     | Raised exc =>
         exc = "OSError"%string
         /\ (List.length (log w') < List.length (log w) + fuel)%nat
     end.
Proof.
  revert w; induction fuel as [|k IH]; intros w Ha; cbv zeta.
  - cbn. split; [apply same_settings_refl | lia].
  - cbn [monitoring_loop]. rewrite bind_run. cbn [get_sys fst snd].
    rewrite Ha, bind_run.
    pose proof (monitoring_iteration_same_settings w) as Hs.
    pose proof (monitoring_iteration_log w) as Hl. cbv zeta in Hl.
    destruct (fst (monitoring_iteration w)) as [[]|exc].
    + destruct Hl as (_ & e & He & _).
      assert (Ha' : is_active (sys (snd (monitoring_iteration w))) = true)
        by (destruct Hs as (H & _); congruence).
      destruct (IH _ Ha') as (Hs' & Hl'). split.
      * eapply same_settings_trans; eassumption.
      * destruct (fst (monitoring_loop k (snd (monitoring_iteration w))))
          as [[]|exc'].
        -- rewrite Hl', He, length_app. cbn. lia.
        -- destruct Hl' as (Hexc & Hl'). split; [exact Hexc|].
           rewrite He, length_app in Hl'. cbn in Hl'. lia.
    + destruct Hl as (_ & Hexc & Hl). cbn [ret fst snd]. split; [exact Hs|].
      split; [exact Hexc | rewrite Hl; lia].
Qed.

Lemma monitoring_loop_writable (fuel : nat) (w : World) :
  (forall t : nat, writable w t = true) ->
  fst (monitoring_loop fuel w) = Returned tt.
Proof.
  revert w; induction fuel as [|k IH]; intros w Hw; [reflexivity|].
  cbn [monitoring_loop]. rewrite bind_run. cbn [get_sys fst snd].
  destruct (is_active (sys w)); [|reflexivity].
  rewrite bind_run.
  pose proof (monitoring_iteration_log w) as Hl. cbv zeta in Hl.
  destruct (fst (monitoring_iteration w)) as [[]|exc].
  - apply IH. intros t. rewrite monitoring_iteration_writable. apply Hw.
  - destruct Hl as (Hl & _). rewrite Hw in Hl. discriminate.
Qed.

(** Monitoring never touches the settings, and it ends by itself only
    when a log write fails.  After [continuous_monitoring] has been given
    [fuel] passes, [is_active] is set and the detection mode and the
    protection level are what they were; either every pass has run and
    exactly [fuel] lines were added to the log, or [OSError] has left the
    method, which has no handler, after fewer lines.  On a file system
    that is always writable every pass runs. *)
Theorem continuous_monitoring_ends_only_on_write_error :
  forall (fuel : nat) (w : World),
    let w' := snd (continuous_monitoring fuel w) in
    is_active (sys w') = true
    /\ detection_mode (sys w') = detection_mode (sys w)
    /\ protection_level (sys w') = protection_level (sys w)
    /\ match fst (continuous_monitoring fuel w) with
       | Returned _ => List.length (log w') = (List.length (log w) + fuel)%nat
       | Raised exc =>
           exc = "OSError"%string
           /\ (List.length (log w') < List.length (log w) + fuel)%nat
       end
    /\ ((forall t : nat, writable w t = true) ->
        fst (continuous_monitoring fuel w) = Returned tt).
Proof.
  intros fuel w. cbv zeta. unfold continuous_monitoring. rewrite !bind_run.
  set (w1 := snd (with_sys (set_is_active true)
                           (snd (print "🔄 Starting continuous monitoring..." w)))).
  assert (Ha : is_active (sys w1) = true) by reflexivity.
  destruct (monitoring_loop_runs fuel w1 Ha) as ((H1 & H2 & H3) & Hl).
  split; [congruence|].
  split; [rewrite <- H2; reflexivity|].
  split; [rewrite <- H3; reflexivity|].
  split; [exact Hl|].
  intros Hw. apply monitoring_loop_writable. exact Hw.
Qed.

(** At concrete inputs, every draw one half (the passes write at instants
    10, 20, 30): three passes on a writable file system log three lines;
    on one that is full from instant 15 on, the second pass raises and
    the method ends with one line logged and [is_active] still set. *)
Lemma continuous_monitoring_ends_only_on_write_error_witness :
  let w := fresh half in
  let v := on_disk (full_from 15) (fresh half) in
  (fst (continuous_monitoring 3 w) = Returned tt
   /\ List.length (log (snd (continuous_monitoring 3 w))) = 3%nat)
  /\ (fst (continuous_monitoring 3 v) = Raised "OSError"%string
      /\ List.length (log (snd (continuous_monitoring 3 v))) = 1%nat
      /\ is_active (sys (snd (continuous_monitoring 3 v))) = true).
Proof.
  intros w v. split.
  - pose proof (continuous_monitoring_ends_only_on_write_error 3 w) as H.
    cbv zeta in H. destruct H as (_ & _ & _ & Hl & Hr).
    assert (E : fst (continuous_monitoring 3 w) = Returned tt)
      by (apply Hr; intros t; reflexivity).
    rewrite E in Hl. split; [exact E | exact Hl].
  - pose proof (continuous_monitoring_ends_only_on_write_error 3 v) as H.
    cbv zeta in H. destruct H as (Ha & _ & _ & _ & _).
    split; [vm_compute; reflexivity|].
    split; [vm_compute; reflexivity | exact Ha].
Defined.

(** Once [stop_monitoring] has cleared the switch, the loop does nothing
    more, however many passes it had left: no scan, no log line, no
    output. *)
Theorem stopped_loop_does_nothing :
  forall (fuel : nat) (w : World),
    let w' := snd (stop_monitoring w) in
    monitoring_loop fuel w' = (Returned tt, w').
Proof.
  intros fuel w. cbv zeta. destruct fuel as [|k]; [reflexivity|].
  cbn [monitoring_loop]. rewrite bind_run. reflexivity.
Qed.

(** A pass whose scan is classified none or low applies no protection:
    the object changes only by the signals appended, so [jamming_active]
    keeps the value an earlier pass gave it. *)
Theorem quiet_pass_keeps_jamming_active :
  forall w : World,
    severity_le (analyze_threat_level (fst (detect_gps_signals w))) Low ->
    sys (snd (monitoring_iteration w))
    = extend_gps_signals_detected (fst (detect_gps_signals w)) (sys w).
Proof.
  intros w Hq. rewrite monitoring_iteration_run.
  set (signals := fst (detect_gps_signals w)) in *.
  assert (Hr : respond signals (snd (detect_gps_signals w))
               = (tt, snd (respond signals (snd (detect_gps_signals w))))
               /\ sys (snd (respond signals (snd (detect_gps_signals w))))
                  = sys (snd (detect_gps_signals w))).
  { unfold respond. destruct signals as [|x r]; [split; reflexivity|].
    cbv zeta. rewrite bind_run.
    unfold severity_le in Hq.
    destruct (analyze_threat_level (x :: r)); cbn in Hq; try lia;
      split; reflexivity. }
  destruct Hr as [_ Hr].
  rewrite log_activity_sys, Hr. apply detect_gps_signals_sys.
Qed.

(** At a concrete input: a medium pass has switched jamming on; the next
    pass detects one signal, of strength 0.55, which is low, and leaves
    [jamming_active] set. *)
Lemma quiet_pass_keeps_jamming_active_witness :
  let w := snd (monitoring_iteration (fresh medium_then_low)) in
  jamming_active (sys w) = true
  /\ List.length (fst (detect_gps_signals w)) = 1%nat
  /\ analyze_threat_level (fst (detect_gps_signals w)) = Low
  /\ sys (snd (monitoring_iteration w))
     = extend_gps_signals_detected (fst (detect_gps_signals w)) (sys w)
  /\ jamming_active (sys (snd (monitoring_iteration w))) = true.
Proof.
  intros w.
  assert (Hlow : analyze_threat_level (fst (detect_gps_signals w)) = Low)
    by (vm_compute; reflexivity).
  assert (Hsys : sys (snd (monitoring_iteration w))
                 = extend_gps_signals_detected (fst (detect_gps_signals w)) (sys w)).
  { apply (quiet_pass_keeps_jamming_active w). rewrite Hlow. apply le_n. }
  split; [vm_compute; reflexivity|].
  split; [vm_compute; reflexivity|].
  split; [exact Hlow|].
  split; [exact Hsys|].
  rewrite Hsys. vm_compute. reflexivity.
Defined.

(** Spoofing, frequency hopping, encryption, logging and the status query
    leave every attribute of the object as it was. *)
Theorem read_only_methods :
  forall (w : World) (signals : list Signal.t),
    sys (snd (location_spoofing w)) = sys w
    /\ sys (snd (frequency_hopping w)) = sys w
    /\ sys (snd (encrypt_location_data w)) = sys w
    /\ sys (snd (log_activity signals w)) = sys w
    /\ sys (snd (get_status w)) = sys w.
Proof.
  intros w signals. split; [|split; [|split; [|split]]]; symmetry.
  - apply (respects_location_spoofing eq); [reflexivity | intros; congruence].
  - apply (respects_frequency_hopping eq); [reflexivity | intros; congruence].
  - apply (respects_encrypt eq); [reflexivity | intros; congruence].
  - apply (respects_log_activity eq); [reflexivity | intros; congruence].
  - apply (respects_get_status eq); [reflexivity | intros; congruence].
Qed.

End Monitoring.

(** ** More on distances *)

Section DistanceFacts.

Import LiveLocations.
Open Scope R_scope.










End DistanceFacts.

(** ** More on the tracker *)

Section TrackerFacts.

Import LiveLocations.

Lemma skipn_min (A : Type) (k : nat) (xs : list A) :
  skipn (Nat.min k (List.length xs)) xs = skipn k xs.
Proof.
  destruct (Nat.le_gt_cases k (List.length xs)) as [H|H].
  - now rewrite Nat.min_l.
  - rewrite Nat.min_r by lia. rewrite skipn_all, skipn_all2 by lia. reflexivity.
Qed.

(** [get_location_history(limit)]: for a positive limit the last [limit]
    samples (all of them when there are fewer), in order; for limit 0 the
    whole history; for a negative limit the history without its first
    [-limit] samples. *)
Theorem get_location_history_slices :
  forall (t : LiveLocationTracker) (limit : Z),
    ((0 < limit)%Z ->
     get_location_history limit t = lastn (Z.to_nat limit) (location_history t))
    /\ (limit = 0%Z -> get_location_history limit t = location_history t)
    /\ ((limit < 0)%Z ->
        get_location_history limit t
        = skipn (Z.to_nat (- limit)) (location_history t)).
Proof.
  intros t limit. unfold get_location_history.
  destruct (location_history t) as [|p r] eqn:E.
  - unfold lastn. repeat split; intros; now rewrite ?skipn_nil.
  - unfold slice_from, lastn.
    set (h := p :: r). repeat split; intros H.
    + destruct (Z.ltb_spec (- limit) 0) as [_|F]; [|lia].
      f_equal. lia.
    + subst limit. reflexivity.
    + destruct (Z.ltb_spec (- limit) 0) as [F|_]; [lia|].
      rewrite <- (skipn_min _ (Z.to_nat (- limit)) h). f_equal. lia.
Qed.

Lemma get_location_history_slices_witness :
  let mk := fun i => mkLocation "Paris" 48.8566 2.3522 "France" i 5 0 0 0 in
  let t := mkTracker true (Some (mk 3%nat)) (map mk (seq 0 4)) 1 in
  get_location_history 2 t = [mk 2%nat; mk 3%nat]
  /\ get_location_history 0 t = [mk 0%nat; mk 1%nat; mk 2%nat; mk 3%nat]
  /\ get_location_history (-1) t = [mk 1%nat; mk 2%nat; mk 3%nat].
Proof.
  intros mk t.
  destruct (get_location_history_slices t 2) as (H1 & _ & _).
  destruct (get_location_history_slices t 0) as (_ & H2 & _).
  destruct (get_location_history_slices t (-1)) as (_ & _ & H3).
  split; [|split].
  - rewrite H1 by lia. reflexivity.
  - rewrite H2 by reflexivity. reflexivity.
  - rewrite H3 by lia. reflexivity.
Defined.

Lemma tracking_loop_app (d1 d2 : list (Location * option string)) (w : World) :
  tracking_loop (d1 ++ d2) w = tracking_loop d2 (tracking_loop d1 w).
Proof. unfold tracking_loop. apply fold_left_app. Qed.

Lemma tracking_iteration_bookkeeping (location : Location) (e : option string)
      (w : World) :
  let w' := tracking_iteration location e w in
  is_tracking (tracker w') = is_tracking (tracker w)
  /\ tracking_interval (tracker w') = tracking_interval (tracker w)
  /\ current_location (tracker w') = Some location
  /\ List.length (log w')
     = (List.length (log w) + (if failed e then 0 else 1))%nat
  /\ List.length (stdout w')
     = (List.length (stdout w) + (if failed e then 1 else 0))%nat.
Proof.
  cbv zeta. unfold tracking_iteration, log_location.
  destruct e; cbn; rewrite ?length_app; cbn; repeat split; lia.
Qed.

(** The loop keeps its books: it never touches the switch or the interval;
    every pass whose log write succeeds adds one log line and every pass
    whose write fails adds one error line, the sample being kept either
    way; and after the last pass [current_location] is the sample of that
    pass, which is also the newest entry of the history. *)
Theorem tracking_loop_bookkeeping :
  forall (draws : list (Location * option string)) (w : World),
    let w' := tracking_loop draws w in
    is_tracking (tracker w') = is_tracking (tracker w)
    /\ tracking_interval (tracker w') = tracking_interval (tracker w)
    /\ List.length (log w')
       = (List.length (log w)
          + List.length (filter (fun d => negb (failed (snd d))) draws))%nat
    /\ List.length (stdout w')
       = (List.length (stdout w)
          + List.length (filter (fun d => failed (snd d)) draws))%nat
    /\ (forall earlier location e,
           draws = (earlier ++ [(location, e)])%list ->
           current_location (tracker w') = Some location
           /\ exists older, location_history (tracker w') = (older ++ [location])%list).
Proof.
  intros draws. induction draws as [|[location e] r IH] using rev_ind; intros w.
  - cbn. split; [|split; [|split; [|split]]]; try reflexivity; try lia.
    intros earlier location e H. destruct earlier; discriminate.
  - cbv zeta. rewrite tracking_loop_app.
    destruct (IH w) as (H1 & H2 & H3 & H4 & _).
    change (tracking_loop [(location, e)] (tracking_loop r w))
      with (tracking_iteration location e (tracking_loop r w)).
    destruct (tracking_iteration_bookkeeping location e (tracking_loop r w))
      as (B1 & B2 & B3 & B4 & B5).
    rewrite !filter_app, !length_app. cbn [filter snd List.length].
    split; [|split; [|split; [|split]]].
    + congruence.
    + congruence.
    + rewrite B4, H3. destruct e; cbn; lia.
    + rewrite B5, H4. destruct e; cbn; lia.
    + intros earlier location' e' H.
      apply app_inj_tail in H as [_ E]. injection E as E1 E2.
      subst location' e'. split; [exact B3|].
      rewrite tracking_iteration_history. unfold lastn.
      set (h := location_history (tracker (tracking_loop r w))).
      rewrite skipn_app.
      destruct (Nat.le_gt_cases (List.length (h ++ [location]) - 100) (List.length h))
        as [Hle|Hgt].
      * replace (List.length (h ++ [location]) - 100 - List.length h)%nat
          with 0%nat by lia.
        eexists. reflexivity.
      * rewrite length_app in Hgt. cbn in Hgt. lia.
Qed.

Lemma tracking_loop_bookkeeping_witness :
  let a := mkLocation "Paris" 48.8566 2.3522 "France" 0 5 0 0 0 in
  let b := mkLocation "London" 51.5074 (-0.1278) "UK" 1 5 0 0 0 in
  let w' := tracking_loop [(a, None); (b, Some "disk full"%string)]
                          (mkWorld init [] []) in
  current_location (tracker w') = Some b
  /\ exists older, location_history (tracker w') = (older ++ [b])%list.
Proof.
  intros a b w'.
  destruct (tracking_loop_bookkeeping [(a, None); (b, Some "disk full"%string)]
                                      (mkWorld init [] []))
    as (_ & _ & _ & _ & H).
  apply (H [(a, None)] b (Some "disk full"%string)). reflexivity.
Defined.

End TrackerFacts.

(** ** Percent-encoding *)

Section Quote.

Import ShareableLinks.
Open Scope string_scope.

Lemma quote_cons (c : ascii) (r : string) :
  quote (String c r)
  = (if always_safe c then String c EmptyString
     else "%" ++ hex_digit (nat_of_ascii c / 16) ++ hex_digit (nat_of_ascii c mod 16))
      ++ quote r.
Proof. reflexivity. Qed.

Lemma list_ascii_app (a b : string) :
  list_ascii_of_string (a ++ b)
  = (list_ascii_of_string a ++ list_ascii_of_string b)%list.
Proof. induction a as [|c a IH]; simpl; [reflexivity | now rewrite IH]. Qed.

Lemma length_string_app (a b : string) :
  String.length (a ++ b) = (String.length a + String.length b)%nat.
Proof. induction a as [|c a IH]; simpl; [reflexivity | now rewrite IH]. Qed.

Lemma quoted_ok_all (c : ascii) : quoted_ok c = true.
Proof. destruct c as [[] [] [] [] [] [] [] []]; vm_compute; reflexivity. Qed.

(** What one byte becomes: itself when it is safe, else a percent sign and
    two safe characters. *)
Lemma quote_byte (c : ascii) :
  let q := if always_safe c then String c EmptyString
           else "%" ++ hex_digit (nat_of_ascii c / 16)
                    ++ hex_digit (nat_of_ascii c mod 16) in
  (always_safe c = true -> q = String c EmptyString)
  /\ (always_safe c = false ->
      exists h l : ascii,
        q = String "%" (String h (String l EmptyString))
        /\ always_safe h = true /\ always_safe l = true).
Proof.
  cbv zeta. split; intros H; rewrite H; [reflexivity|].
  pose proof (quoted_ok_all c) as K. unfold quoted_ok in K. rewrite H in K.
  destruct ("%" ++ hex_digit (nat_of_ascii c / 16)
                ++ hex_digit (nat_of_ascii c mod 16))
    as [|p [|h [|l [|x y]]]]; try discriminate K.
  apply andb_prop in K as [K Kl]. apply andb_prop in K as [Kp Kh].
  apply Ascii.eqb_eq in Kp. subst p. exists h, l. auto.
Qed.

Lemma quote_chars (s : string) :
  Forall (fun c => always_safe c = true \/ c = "%"%char)
         (list_ascii_of_string (quote s)).
Proof.
  induction s as [|c r IH]; [constructor|].
  rewrite quote_cons, list_ascii_app. apply Forall_app. split; [|exact IH].
  destruct (quote_byte c) as [Hs Hu]. cbv zeta in Hs, Hu.
  destruct (always_safe c) eqn:E.
  - cbn. constructor; [left; exact E | constructor].
  - destruct (Hu eq_refl) as (h & l & -> & Hh & Hl). cbn.
    constructor; [right; reflexivity|].
    constructor; [left; exact Hh|].
    constructor; [left; exact Hl | constructor].
Qed.

Lemma quote_length (s : string) :
  String.length (quote s) = (String.length s + 2 * escaped s)%nat.
Proof.
  induction s as [|c r IH]; [reflexivity|].
  rewrite quote_cons, length_string_app, IH. cbn [escaped String.length].
  destruct (quote_byte c) as [Hs Hu]. cbv zeta in Hs, Hu.
  destruct (always_safe c) eqn:E.
  - cbn. lia.
  - destruct (Hu eq_refl) as (h & l & -> & _ & _). cbn. lia.
Qed.

(** [quote] yields only letters, digits, [_.-~/] and percent signs: no
    character that would end or split the query it is put in. *)
Theorem quote_leaves_no_reserved_character :
  forall s : string,
    Forall (fun c => always_safe c = true \/ c = "%"%char)
           (list_ascii_of_string (quote s))
    /\ forall c : ascii,
        In c [" "; "&"; "?"; "="; "#"; "+"; ","; ":"; ";"; "@"]%char ->
        ~ In c (list_ascii_of_string (quote s)).
Proof.
  intros s. split; [apply quote_chars|].
  intros c Hc Hin.
  pose proof (quote_chars s) as H. rewrite Forall_forall in H.
  destruct (H c Hin) as [Hs|Hp].
  - cbn in Hc. repeat (destruct Hc as [<-|Hc]; [discriminate Hs|]). exact Hc.
  - subst c. cbn in Hc. repeat (destruct Hc as [Hc|Hc]; [discriminate Hc|]).
    exact Hc.
Qed.

(** [quote] changes a string exactly when it has a byte to escape: the
    result is three bytes long for each escaped byte and one for each
    other. *)
Theorem quote_identity_iff_safe :
  forall s : string,
    String.length (quote s) = (String.length s + 2 * escaped s)%nat
    /\ (quote s = s <-> escaped s = 0%nat).
Proof.
  intros s. split; [apply quote_length|]. split.
  - intros H. pose proof (quote_length s) as L. rewrite H in L. lia.
  - induction s as [|c r IH]; [reflexivity|].
    cbn [escaped]. rewrite quote_cons.
    destruct (always_safe c); [|discriminate].
    intros H. cbn in H. cbn. now rewrite (IH H).
Qed.

End Quote.

(** ** The sibling link generators *)

Section Siblings.

Import ShareableLinks.
Open Scope string_scope.

Lemma enhanced_sublinks (location : Location) :
  sublinks (generate_links location) (enhanced_generate_links location).
Proof.
  unfold sublinks, generate_links, enhanced_generate_links. cbv zeta.
  cbn [map fst]. repeat (constructor; [reflexivity|]). constructor.
Qed.

(** The enhanced generator extends the basic one: every link of
    [generate_links] is there under the same key with the same text, next
    to five more (here_maps, instagram, discord, skype, rich_text). *)
Theorem enhanced_links_extend_basic :
  forall location : Location,
    sublinks (generate_links location) (enhanced_generate_links location)
    /\ map fst (enhanced_generate_links location)
       = ["google_maps"; "apple_maps"; "waze"; "bing_maps"; "openstreetmap";
          "here_maps"; "whatsapp"; "telegram"; "twitter"; "facebook"; "linkedin";
          "instagram"; "discord"; "email"; "sms"; "deep_link"; "skype";
          "qr_code_data"; "custom_share"; "short_text"; "detailed_text";
          "rich_text"].
Proof.
  intros location. split; [apply enhanced_sublinks | reflexivity].
Qed.

Lemma advanced_sublinks (location : Location) (links : list (string * string)) :
  generate_shareable_links location = Links links ->
  sublinks links (generate_links location).
Proof.
  destruct location as [la lo n c [w|] [t|] [tr|] [sp|]];
    unfold generate_shareable_links; cbn [weather temperature traffic speed];
    cbv zeta; intros H; try discriminate H.
  injection H as <-.
  unfold sublinks, generate_links. cbv zeta.
  cbn [map fst]. repeat (constructor; [reflexivity|]). constructor.
Qed.

(** The tracker's own generator agrees with [generate_links] wherever it
    answers: with weather, temperature, traffic and speed present it
    returns fifteen links, each the same as the link [generate_links]
    gives under that key; with any of the four missing it raises KeyError
    for the first one missing, where [generate_links] falls back on a
    default. *)
Theorem advanced_links_agree_or_raise :
  forall location : Location,
    (forall links,
        generate_shareable_links location = Links links ->
        List.length links = 15%nat /\ sublinks links (generate_links location))
    /\ (forall key,
           generate_shareable_links location = KeyError key <->
           (weather location = None /\ key = "weather")
           \/ (weather location <> None /\ temperature location = None
               /\ key = "temperature")
           \/ (weather location <> None /\ temperature location <> None
               /\ traffic location = None /\ key = "traffic")
           \/ (weather location <> None /\ temperature location <> None
               /\ traffic location <> None /\ speed location = None
               /\ key = "speed"))
    /\ List.length (generate_links location) = 17%nat.
Proof.
  intros location. split; [|split].
  - intros links H. split; [|now apply advanced_sublinks].
    destruct location as [la lo n c [w|] [t|] [tr|] [sp|]];
      unfold generate_shareable_links in H;
      cbn [weather temperature traffic speed] in H; cbv zeta in H;
      try discriminate H.
    injection H as <-. reflexivity.
  - intros key.
    destruct location as [la lo n c [w|] [t|] [tr|] [sp|]];
      unfold generate_shareable_links;
      cbn [weather temperature traffic speed]; cbv zeta;
      (split;
       [ intros H; try discriminate H; injection H as <-;
         intuition (auto; congruence)
       | intros H; decompose [and or] H; subst; congruence ]).
  - reflexivity.
Qed.

Lemma advanced_links_agree_or_raise_witness :
  let full :=
    mkLocation (lat new_york) (lon new_york) "New York" "USA"
               (Some "Sunny") (Some PrimFloat.one) (Some "Light")
               (Some PrimFloat.two) in
  (exists links,
      generate_shareable_links full = Links links
      /\ sublinks links (generate_links full))
  /\ generate_shareable_links new_york = KeyError "weather".
Proof.
  intros full. split.
  - eexists. split; [reflexivity|].
    apply (proj1 (advanced_links_agree_or_raise full)). reflexivity.
  - apply (proj1 (proj2 (advanced_links_agree_or_raise new_york))).
    left. split; reflexivity.
Defined.

End Siblings.

(** ** What the random draws can produce *)

Section Draws.

Import AntiGPS.
Open Scope Q_scope.

Lemma gt_true_lt (a bound : Q) : Py.gt a bound = true -> bound < a.
Proof.
  unfold Py.gt. intros H. apply Qnot_le_lt. intros L.
  apply Qle_bool_iff in L. rewrite L in H. discriminate.
Qed.

Lemma uniform_value_range (a b u : Q) :
  a <= b -> 0 <= u -> u < 1 ->
  a <= uniform_value a b u /\ uniform_value a b u <= b.
Proof.
  unfold uniform_value. intros Hab H0 H1.
  assert (P1 : 0 <= (b - a) * u) by (apply Qmult_le_0_compat; Lqa.lra).
  assert (P2 : 0 <= (b - a) * (1 - u)) by (apply Qmult_le_0_compat; Lqa.lra).
  split; Lqa.lra.
Qed.

Lemma choice_index_in_range {A : Type} (xs : list A) (u : Q) :
  xs <> [] -> 0 <= u -> u < 1 ->
  (Z.to_nat (Qfloor (u * Py.len xs)) < List.length xs)%nat.
Proof.
  intros Hne H0 H1. unfold Py.len.
  set (n := Z.of_nat (List.length xs)).
  assert (Hn : (0 < n)%Z) by (destruct xs; [congruence | unfold n; cbn; lia]).
  assert (Hq : 0 < inject_Z n) by (unfold Qlt; cbn; lia).
  assert (Hlo : (0 <= Qfloor (u * inject_Z n))%Z).
  { rewrite <- (Qfloor_Z 0). apply Qfloor_resp_le.
    change (inject_Z 0) with 0.
    apply Qmult_le_0_compat; [exact H0 | apply Qlt_le_weak; exact Hq]. }
  assert (Hhi : (Qfloor (u * inject_Z n) < n)%Z).
  { rewrite Zlt_Qlt. eapply Qle_lt_trans; [apply Qfloor_le|].
    assert (E : inject_Z n == 1 * inject_Z n) by ring.
    rewrite E at 2. apply Qmult_lt_r; assumption. }
  apply Nat2Z.inj_lt. rewrite Z2Nat.id by exact Hlo. exact Hhi.
Qed.

Lemma choice_spec {A : Type} (xs : list A) (d : A) (w : World) :
  xs <> [] -> unit_draws (rng w) ->
  In (fst (choice xs d w)) xs /\ rng (snd (choice xs d w)) = rng w.
Proof.
  intros Hne Hu. unfold choice. rewrite bind_run. cbn [random ret fst snd rng].
  split; [|reflexivity].
  destruct (Hu (rng_pos w)) as [H0 H1].
  apply nth_In, choice_index_in_range; assumption.
Qed.

Lemma for_each_scan_band_well_sampled (bands : list (string * Q))
      (acc : list Signal.t) (w : World) :
  unit_draws (rng w) ->
  incl bands gps_frequencies ->
  Forall well_sampled acc ->
  Forall well_sampled (fst (for_each bands scan_band acc w))
  /\ (List.length (fst (for_each bands scan_band acc w))
      <= List.length acc + List.length bands)%nat.
Proof.
  revert acc w; induction bands as [|[freq_name freq] rest IH];
    intros acc w Hu Hin Hacc.
  - cbn. split; [exact Hacc | lia].
  - cbn [for_each]. rewrite bind_run.
    destruct (scan_band_spec acc freq_name freq w) as (Hf & Hr & _ & _).
    cbv zeta in Hf, Hr.
    set (st := uniform_value 0.1 1.0 (rng w (rng_pos w))) in *.
    set (q := uniform_value 0.5 0.95 (rng w (S (rng_pos w)))) in *.
    destruct (Hu (rng_pos w)) as [A0 A1]. destruct (Hu (S (rng_pos w))) as [B0 B1].
    destruct (uniform_value_range 0.1 1.0 _ ltac:(Lqa.lra) A0 A1) as [S0 S1].
    destruct (uniform_value_range 0.5 0.95 _ ltac:(Lqa.lra) B0 B1) as [Q0 Q1].
    fold st in S0, S1. fold q in Q0, Q1.
    assert (Hacc' : Forall well_sampled
                      (fst (scan_band acc (freq_name, freq) w))
                    /\ (List.length (fst (scan_band acc (freq_name, freq) w))
                        <= S (List.length acc))%nat).
    { rewrite Hf. destruct (Py.gt st 0.3) eqn:E; [|split; [exact Hacc | lia]].
      split; [|rewrite length_app; cbn; lia].
      apply Forall_app. split; [exact Hacc|]. constructor; [|constructor].
      unfold well_sampled. cbn.
      split; [apply Hin; now left|].
      split; [now apply gt_true_lt|]. auto. }
    destruct Hacc' as [Hw Hl].
    destruct (IH (fst (scan_band acc (freq_name, freq) w))
                 (snd (scan_band acc (freq_name, freq) w))) as [I1 I2].
    + rewrite Hr. exact Hu.
    + intros b Hb. apply Hin. now right.
    + exact Hw.
    + split; [exact I1|]. cbn [List.length]. lia.
Qed.

(** With draws in [[0, 1)], a scan reports at most three signals, each on
    one of the three GPS bands, with strength in (0.3, 1.0], quality in
    [0.5, 0.95], and marked high exactly when its strength exceeds 0.7. *)
Theorem detect_gps_signals_well_sampled :
  forall w : World,
    unit_draws (rng w) ->
    Forall well_sampled (fst (detect_gps_signals w))
    /\ (List.length (fst (detect_gps_signals w)) <= 3)%nat.
Proof.
  intros w Hu.
  destruct (detect_gps_signals_run w) as (Hf & _ & _). rewrite Hf.
  apply (for_each_scan_band_well_sampled gps_frequencies []
           (snd (print "🔍 Scanning for GPS signals..." w))).
  - exact Hu.
  - apply incl_refl.
  - constructor.
Qed.

Lemma detect_gps_signals_well_sampled_witness :
  Forall well_sampled (fst (detect_gps_signals (fresh half)))
  /\ (List.length (fst (detect_gps_signals (fresh half))) <= 3)%nat.
Proof.
  apply (detect_gps_signals_well_sampled (fresh half)).
  intros n. split; [discriminate | reflexivity].
Defined.

Lemma choices_joined_spec (population : list string) (k : nat) (w : World) :
  population <> [] ->
  Forall (fun c => String.length c = 1%nat) population ->
  unit_draws (rng w) ->
  String.length (fst (choices_joined population k w)) = k
  /\ Forall (fun c => In (String c EmptyString) population)
            (list_ascii_of_string (fst (choices_joined population k w))).
Proof.
  intros Hne Hone. revert w; induction k as [|k IH]; intros w Hu.
  - cbn. split; [reflexivity | constructor].
  - cbn [choices_joined]. rewrite !bind_run. cbn [ret fst].
    destruct (choice_spec population ""%string w Hne Hu) as [Hin Hr].
    destruct (IH (snd (choice population ""%string w))) as [Hl Hf];
      [rewrite Hr; exact Hu|].
    remember (fst (choice population ""%string w)) as c eqn:Ec.
    remember (fst (choices_joined population k (snd (choice population ""%string w))))
      as rest eqn:Er.
    pose proof (proj1 (Forall_forall _ _) Hone c Hin) as Hc.
    destruct c as [|a [|b r]]; try discriminate Hc.
    cbn [append String.length list_ascii_of_string].
    split; [now rewrite Hl|]. constructor; [exact Hin | exact Hf].
Qed.

(** With draws in [[0, 1)], the encryption key is 32 characters long, each
    one of [0123456789ABCDEF]; the record names AES-256 and the method
    encryption. *)
Theorem encryption_key_is_32_hex_digits :
  forall w : World,
    unit_draws (rng w) ->
    let e := fst (encrypt_location_data w) in
    String.length (Encrypted.encryption_key e) = 32%nat
    /\ Forall (fun c => In (String c EmptyString) hex_digits)
              (list_ascii_of_string (Encrypted.encryption_key e))
    /\ Encrypted.algorithm e = "AES-256"%string
    /\ Encrypted.method e = "encryption"%string.
Proof.
  intros w Hu. cbv zeta. unfold encrypt_location_data. rewrite !bind_run.
  cbn [ret fst Encrypted.encryption_key Encrypted.algorithm Encrypted.method].
  destruct (choices_joined_spec hex_digits 32
              (snd (print "🔐 Encrypting location data..." w)))
    as [Hl Hf]; [discriminate | repeat constructor | exact Hu |].
  split; [exact Hl|]. split; [exact Hf|]. split; reflexivity.
Qed.

Lemma encryption_key_is_32_hex_digits_witness :
  String.length (Encrypted.encryption_key (fst (encrypt_location_data (fresh half))))
  = 32%nat.
Proof.
  apply (encryption_key_is_32_hex_digits (fresh half)).
  intros n. split; [discriminate | reflexivity].
Defined.

(** With draws in [[0, 1)], spoofing reports one of the five listed cities
    and never the real position, and frequency hopping one of the three
    listed patterns with an interval between 0.1 and 0.5 seconds. *)
Theorem spoofing_and_hopping_draw_from_their_tables :
  forall w : World,
    unit_draws (rng w) ->
    In (Spoof.spoofed_location (fst (location_spoofing w))) fake_locations
    /\ Spoof.original_location (fst (location_spoofing w)) = "PROTECTED"%string
    /\ In (Hopping.pattern (fst (frequency_hopping w))) hop_patterns
    /\ 0.1 <= Hopping.interval (fst (frequency_hopping w))
    /\ Hopping.interval (fst (frequency_hopping w)) <= 0.5.
Proof.
  intros w Hu.
  unfold location_spoofing, frequency_hopping, uniform. rewrite !bind_run.
  cbn [ret fst Spoof.spoofed_location Spoof.original_location
       Hopping.pattern Hopping.interval].
  split; [|split; [reflexivity|split]].
  - apply choice_spec; [discriminate | exact Hu].
  - apply choice_spec; [discriminate | exact Hu].
  - cbn [random fst].
    set (w1 := snd (choice hop_patterns []
                      (snd (print "🔄 Activating frequency hopping..." w)))).
    assert (Hu1 : unit_draws (rng w1)).
    { unfold w1.
      destruct (choice_spec hop_patterns []
                  (snd (print "🔄 Activating frequency hopping..." w))
                  ltac:(discriminate) Hu) as [_ Hr].
      rewrite Hr. exact Hu. }
    destruct (Hu1 (rng_pos w1)) as [H0 H1].
    apply uniform_value_range; [Lqa.lra | exact H0 | exact H1].
Qed.

Lemma spoofing_and_hopping_draw_from_their_tables_witness :
  In (Spoof.spoofed_location (fst (location_spoofing (fresh half)))) fake_locations.
Proof.
  apply (spoofing_and_hopping_draw_from_their_tables (fresh half)).
  intros n. split; [discriminate | reflexivity].
Defined.

End Draws.

(** ** The classifier in binary64 *)

Section ClassifierBinary64.

Import PrimFloat AntiGPS64.

Set Warnings "-inexact-float".



End ClassifierBinary64.

(** ** The distance travelled in binary64 *)

Section DistanceBinary64.

Import FloatAxioms SpecFloat FloatOps.
Import PrimFloat Binary64 LiveLocations64.

Set Warnings "-inexact-float".

Lemma and_then_returned {A : Type} (c : Completion A) : and_then c Returned = c.
Proof. destruct c; reflexivity. Qed.

(** What [math.sqrt] does with a negative number. *)
Lemma sqrt_negative (x : float) :
  (x <? 0)%float = true -> sqrt x = Raised "ValueError".
Proof.
  intros H. rewrite ltb_spec in H.
  change (Prim2SF 0) with (S754_zero false) in H.
  unfold sqrt, math_1, is_nan.
  rewrite !eqb_spec, sqrt_spec.
  destruct (Prim2SF x) as [s|s| |s m e]; cbn in H; try discriminate.
  - destruct s; [|discriminate]. reflexivity.
  - destruct s; [|discriminate]. cbn.
    unfold SFeqb, SFcompare.
    rewrite Z.compare_refl, Pos.compare_cont_refl. reflexivity.
Qed.

(** [math.sqrt] raises nothing but [ValueError]. *)
Lemma sqrt_cases (x : float) :
  sqrt x = Returned (PrimFloat.sqrt x) \/ sqrt x = Raised "ValueError".
Proof.
  unfold sqrt, math_1.
  destruct (is_nan (PrimFloat.sqrt x) && negb (is_nan x)); [right; reflexivity|].
  destruct (is_infinity (PrimFloat.sqrt x) && is_finite x);
    [right | left]; reflexivity.
Qed.

Section AnyLibm.

Context {libm : Libm}.

(** [calculate_distance] computes [a], takes the two square roots, and
    scales the angle. *)
Lemma calculate_distance_run (lat1 lon1 lat2 lon2 : float) :
  calculate_distance lat1 lon1 lat2 lon2
  = and_then (haversine_a (radians lat1) (radians lon1)
                          (radians lat2) (radians lon2))
      (fun a =>
         and_then (sqrt a) (fun y =>
         and_then (sqrt (1 - a)) (fun x =>
         and_then (atan2 y x) (fun angle =>
         Returned (6371 * (2 * angle))%float)))).
Proof.
  unfold calculate_distance, haversine_a. cbv zeta.
  destruct (sin _) as [s1|]; [cbn [and_then]|reflexivity].
  destruct (square s1) as [p1|]; [cbn [and_then]|reflexivity].
  destruct (cos _) as [c1|]; [cbn [and_then]|reflexivity].
  destruct (cos _) as [c2|]; [cbn [and_then]|reflexivity].
  destruct (sin _) as [s2|]; [cbn [and_then]|reflexivity].
  destruct (square s2) as [p2|]; reflexivity.
Qed.

Lemma haversine_km_calculate_distance (p q : Location) :
  haversine_km p q = calculate_distance (lat p) (lon p) (lat q) (lon q).
Proof. rewrite calculate_distance_run. reflexivity. Qed.

Lemma add_leg_next (p : Location) (h : list Location)
      (t : Completion Number) (i : nat) :
  (1 <= i)%nat -> add_leg (p :: h) t (S i) = add_leg h t i.
Proof.
  intros Hi. unfold add_leg.
  replace (S i - 1)%nat with (S (i - 1)) by lia. reflexivity.
Qed.

Lemma fold_add_leg_next (p : Location) (h : list Location) (n start : nat)
      (t : Completion Number) :
  (1 <= start)%nat ->
  fold_left (add_leg (p :: h)) (seq (S start) n) t
  = fold_left (add_leg h) (seq start n) t.
Proof.
  revert start t; induction n as [|n IH]; intros start t Hs; [reflexivity|].
  cbn [seq fold_left]. rewrite add_leg_next by exact Hs.
  apply IH. lia.
Qed.

(** The index loop adds the legs in their order. *)
Lemma fold_add_leg_sum_legs (h : list Location) (t : Completion Number) :
  fold_left (add_leg h) (seq 1 (List.length h - 1)) t
  = and_then t (fun total => sum_legs total (legs h)).
Proof.
  revert t; induction h as [|p h IH]; intros t.
  - cbn. symmetry. apply and_then_returned.
  - destruct h as [|q r].
    + cbn. symmetry. apply and_then_returned.
    + replace (List.length (p :: q :: r) - 1)%nat with (S (List.length (q :: r) - 1))
        by (cbn [List.length]; lia).
      cbn [seq fold_left].
      rewrite fold_add_leg_next by lia. rewrite IH.
      cbn [legs sum_legs]. rewrite haversine_km_calculate_distance.
      unfold add_leg. cbn [nth Nat.sub].
      destruct t as [total|exc]; [cbn [and_then]|reflexivity].
      destruct (calculate_distance (lat p) (lon p) (lat q) (lon q));
        reflexivity.
Qed.

Lemma get_distance_traveled_total_distance (h : list Location) :
  get_distance_traveled h = total_distance h.
Proof.
  unfold get_distance_traveled. cbv zeta.
  destruct h as [|p [|q r]]; [reflexivity | reflexivity |].
  replace (List.length (p :: q :: r) <? 2)%nat with false
    by (symmetry; apply Nat.ltb_ge; cbn [List.length]; lia).
  rewrite fold_add_leg_sum_legs. reflexivity.
Qed.

Lemma legs_app (h : list Location) (p : Location) :
  h <> [] -> legs (h ++ [p]) = (legs h ++ [(newest h, p)])%list.
Proof.
  induction h as [|x h IH]; intros Hne; [contradiction|].
  destruct h as [|y r]; [reflexivity|].
  change (legs ((x :: y :: r) ++ [p])) with ((x, y) :: legs ((y :: r) ++ [p])).
  rewrite IH by discriminate. reflexivity.
Qed.

Lemma sum_legs_app (l1 l2 : list (Location * Location)) (t : Number) :
  sum_legs t (l1 ++ l2)
  = and_then (sum_legs t l1) (fun total => sum_legs total l2).
Proof.
  revert t; induction l1 as [|[p q] l1 IH]; intros t; [reflexivity|].
  cbn [app sum_legs]. destruct (haversine_km p q); [cbn [and_then]|reflexivity].
  apply IH.
Qed.

Lemma get_distance_traveled_append (h : list Location) (p : Location) :
  h <> [] ->
  get_distance_traveled (h ++ [p])
  = and_then (get_distance_traveled h) (fun total =>
    and_then (calculate_distance (lat (newest h)) (lon (newest h)) (lat p) (lon p))
             (fun distance => Returned (plus total distance))).
Proof.
  intros Hne. rewrite !get_distance_traveled_total_distance.
  destruct h as [|x [|y r]]; [contradiction | |].
  - cbn. rewrite haversine_km_calculate_distance.
    destruct (calculate_distance _ _ _ _); reflexivity.
  - change (total_distance ((x :: y :: r) ++ [p]))
      with (sum_legs (Int 0) (legs ((x :: y :: r) ++ [p]))).
    rewrite legs_app by discriminate. rewrite sum_legs_app.
    change (total_distance (x :: y :: r)) with (sum_legs (Int 0) (legs (x :: y :: r))).
    destruct (sum_legs (Int 0) (legs (x :: y :: r))) as [total|exc];
      [cbn [and_then sum_legs]|reflexivity].
    rewrite haversine_km_calculate_distance.
    destruct (calculate_distance _ _ _ _); reflexivity.
Qed.

Lemma calculate_distance_domain_error (lat1 lon1 lat2 lon2 a : float) :
  haversine_a (radians lat1) (radians lon1) (radians lat2) (radians lon2)
  = Returned a ->
  (a <? 0)%float = true \/ (1 - a <? 0)%float = true ->
  calculate_distance lat1 lon1 lat2 lon2 = Raised "ValueError".
Proof.
  intros Ha Hneg. rewrite calculate_distance_run, Ha. cbn [and_then].
  destruct Hneg as [Hneg|Hneg].
  - rewrite (sqrt_negative a Hneg). reflexivity.
  - destruct (sqrt_cases a) as [E|E]; rewrite E; [cbn [and_then]|reflexivity].
    rewrite (sqrt_negative _ Hneg). reflexivity.
Qed.


(** [calculate_distance] returns a distance only when the rounded [a] and
    the rounded [1 - a] are not negative: when either is, [math.sqrt]
    raises [ValueError] and so does [calculate_distance]. *)
Theorem calculate_distance_raises_outside_unit_interval :
  forall lat1 lon1 lat2 lon2 a : float,
    haversine_a (radians lat1) (radians lon1) (radians lat2) (radians lon2)
    = Returned a ->
    ((a <? 0)%float = true \/ (1 - a <? 0)%float = true ->
     calculate_distance lat1 lon1 lat2 lon2 = Raised "ValueError")
    /\ (forall d : float,
           calculate_distance lat1 lon1 lat2 lon2 = Returned d ->
           (a <? 0)%float = false /\ (1 - a <? 0)%float = false).
Proof.
  intros lat1 lon1 lat2 lon2 a Ha. split.
  - apply calculate_distance_domain_error. exact Ha.
  - intros d Hd.
    destruct (a <? 0)%float eqn:E1.
    + rewrite (calculate_distance_domain_error _ _ _ _ a Ha) in Hd;
        [discriminate | left; exact E1].
    + destruct (1 - a <? 0)%float eqn:E2; [|split; reflexivity].
      rewrite (calculate_distance_domain_error _ _ _ _ a Ha) in Hd;
        [discriminate | right; exact E2].
Qed.

(** Appending a sample adds its leg: the distance over the longer history
    is the distance over the history as it was, plus the distance from
    its newest sample to the one appended, with one more rounding. *)
Theorem get_distance_traveled_grows_by_last_leg :
  forall (h : list Location) (p : Location),
    h <> [] ->
    get_distance_traveled (h ++ [p])
    = and_then (get_distance_traveled h) (fun total =>
      and_then (calculate_distance (lat (newest h)) (lon (newest h))
                                   (lat p) (lon p))
               (fun distance => Returned (plus total distance))).
Proof. exact get_distance_traveled_append. Qed.

End AnyLibm.



(** At concrete inputs: from (-82, -179) to (82, 1) the rounded [a] is
    1.0000000000000002, the rounded [1 - a] is negative and the call
    raises; from New York to London [a] is 0.17923643352664348 and the
    call returns 5570.222179737958. *)
Lemma calculate_distance_raises_outside_unit_interval_witness :
  @calculate_distance recorded (-82) (-179) 82 1 = Raised "ValueError"
  /\ @calculate_distance recorded 40.7128 (-74.0060) 51.5074 (-0.1278)
     = Returned 5570.222179737958%float
  /\ (0.17923643352664348 <? 0)%float = false
  /\ (1 - 0.17923643352664348 <? 0)%float = false.
Proof.
  pose proof (@calculate_distance_raises_outside_unit_interval
                recorded (-82) (-179) 82 1 1.0000000000000002%float) as H.
  pose proof (@calculate_distance_raises_outside_unit_interval
                recorded 40.7128 (-74.0060) 51.5074 (-0.1278)
                0.17923643352664348%float) as K.
  assert (E : @calculate_distance recorded 40.7128 (-74.0060) 51.5074 (-0.1278)
              = Returned 5570.222179737958%float) by (vm_compute; reflexivity).
  split.
  - apply H; [vm_compute; reflexivity | right; vm_compute; reflexivity].
  - split; [exact E|].
    apply (proj2 (K ltac:(vm_compute; reflexivity)) _ E).
Defined.

(** At a concrete input: Paris appended to New York, London, Tokyo. *)
Lemma get_distance_traveled_grows_by_last_leg_witness :
  @get_distance_traveled recorded ([new_york; london; tokyo] ++ [paris])
  = Returned (Float (15128.783550544595 + 9711.724818613746))
  /\ (15128.783550544595 + 9711.724818613746 = 24840.508369158342)%float.
Proof.
  split; [|vm_compute; reflexivity].
  rewrite (@get_distance_traveled_grows_by_last_leg
             recorded [new_york; london; tokyo] paris) by discriminate.
  vm_compute. reflexivity.
Defined.

(** The distance is not additive over a cut of the history: New York,
    London, Tokyo, Paris give 24840.508369158342 km, while the part up to
    London and the part from London on give 5570.222179737958 and
    19270.28618942038, whose sum is 24840.50836915834. *)
Theorem get_distance_traveled_not_additive :
  @get_distance_traveled recorded [new_york; london; tokyo; paris]
  = Returned (Float 24840.508369158342)
  /\ @get_distance_traveled recorded [new_york; london]
     = Returned (Float 5570.222179737958)
  /\ @get_distance_traveled recorded [london; tokyo; paris]
     = Returned (Float 19270.28618942038)
  /\ (5570.222179737958 + 19270.28618942038 = 24840.50836915834)%float
  /\ (24840.50836915834 =? 24840.508369158342)%float = false.
Proof.
  split; [vm_compute; reflexivity|].
  split; [vm_compute; reflexivity|].
  split; [vm_compute; reflexivity|].
  split; vm_compute; reflexivity.
Qed.

End DistanceBinary64.
